(** * In-browser LLM demo pages: extraction helpers and page state machines

    A shallow embedding of the page components of the repository: the
    helpers that turn a loosely typed generation result into text, the
    conversion of a thrown value into a display string, and the
    asynchronous handlers of the five pages (llama2.c-stories15M,
    DistilGPT-2, Phi-3, SmolLM2 disposable, SmolLM2 min-footprint). *)

From Stdlib Require Import ZArith List String Ascii Bool Lia.
From Stdlib Require Import DecimalString.
From Stdlib Require QArith_base.
Import ListNotations.
Local Open Scope list_scope.
Local Open Scope string_scope.
Set Warnings "-register-all".

(** ** JavaScript values

    The values the helpers inspect.  Numbers are the integral ones
    (printed in decimal, magnitude below 10^21); strings are sequences of
    8-bit code units; an object is the list of its own enumerable
    string-keyed properties in enumeration order; [JError] is an instance
    of [Error] (its [message] is an own, non-enumerable property, its
    [name] comes from the prototype).  [JBigInt] is kept because it is a
    primitive on which [JSON.stringify] throws. *)
Module Js.

Inductive JsValue : Type :=
| JUndefined
| JNull
| JBool (b : bool)
| JNum (z : Z)
| JBigInt (z : Z)
| JStr (s : string)
| JArr (items : list JsValue)
| JObj (props : list (string * JsValue))
| JError (name message : string).

(** A completion record: normal, or abrupt with the thrown value. *)
Inductive Completion (A : Type) : Type :=
| Normal (a : A)
| Abrupt (e : JsValue).
Arguments Normal {A} a.
Arguments Abrupt {A} e.

Definition dquote : ascii := "034"%char.
Definition newline : string := String "010"%char EmptyString.

(** [typeof x === "string"], [typeof x === "object" && x !== null],
    [Array.isArray(x)], [x instanceof Error]. *)
Definition is_string (v : JsValue) : bool :=
  match v with JStr _ => true | _ => false end.

Definition is_object (v : JsValue) : bool :=
  match v with JArr _ | JObj _ | JError _ _ => true | _ => false end.

Definition is_array (v : JsValue) : bool :=
  match v with JArr _ => true | _ => false end.


Fixpoint lookup (k : string) (props : list (string * JsValue)) : option JsValue :=
  match props with
  | [] => None
  | (k', v) :: rest => if String.eqb k k' then Some v else lookup k rest
  end.

(** [k in x] for an object [x] and a key that no prototype defines
    ([generated_text], [role], [content]). *)
Definition has_key (k : string) (v : JsValue) : bool :=
  match v with
  | JObj props => match lookup k props with Some _ => true | None => false end
  | _ => false
  end.

(** [x.k] for such a key; [undefined] where the property is missing.
    Property access on [null] and [undefined] throws: callers guard it. *)
Definition get_prop (k : string) (v : JsValue) : JsValue :=
  match v with
  | JObj props => match lookup k props with Some x => x | None => JUndefined end
  | _ => JUndefined
  end.

(** [x[0]]: the first element of an array, the property ["0"] of an
    object, the first code unit of a string. *)
Definition get_index0 (v : JsValue) : JsValue :=
  match v with
  | JArr (x :: _) => x
  | JObj props => match lookup "0" props with Some x => x | None => JUndefined end
  | JStr (String c _) => JStr (String c EmptyString)
  | _ => JUndefined
  end.

Definition is_nullish (v : JsValue) : bool :=
  match v with JUndefined | JNull => true | _ => false end.

(** [a ?? b] *)
Definition nullish_coalesce (a b : JsValue) : JsValue :=
  if is_nullish a then b else a.



(** Number::toString and BigInt::toString in radix 10. *)
Definition number_to_string (z : Z) : string :=
  NilZero.string_of_int (Z.to_int z).

Fixpoint join (sep : string) (l : list string) : string :=
  match l with
  | [] => EmptyString
  | [x] => x
  | x :: rest => x ++ sep ++ join sep rest
  end.

(** [String(v)].  Array.prototype.join renders [null] and [undefined]
    elements as the empty string. *)
Fixpoint to_string (v : JsValue) : string :=
  match v with
  | JUndefined => "undefined"
  | JNull => "null"
  | JBool true => "true"
  | JBool false => "false"
  | JNum z => number_to_string z
  | JBigInt z => number_to_string z
  | JStr s => s
  | JArr items =>
      join "," (map (fun x => if is_nullish x then EmptyString else to_string x) items)
  | JObj _ => "[object Object]"
  | JError name message =>
      if String.eqb name EmptyString then message
      else if String.eqb message EmptyString then name
      else name ++ ": " ++ message
  end.

(** *** JSON.stringify *)

Definition hex_digit (n : nat) : ascii :=
  match n with
  | 0 => "0" | 1 => "1" | 2 => "2" | 3 => "3" | 4 => "4" | 5 => "5" | 6 => "6"
  | 7 => "7" | 8 => "8" | 9 => "9" | 10 => "a" | 11 => "b" | 12 => "c"
  | 13 => "d" | 14 => "e" | _ => "f"
  end%char.

Definition backslash : ascii := "092"%char.

(** One code unit of QuoteJSONString. *)
Definition quote_char (c : ascii) : string :=
  let n := nat_of_ascii c in
  let esc (x : ascii) := String backslash (String x EmptyString) in
  if Nat.eqb n 8 then esc "b"%char
  else if Nat.eqb n 9 then esc "t"%char
  else if Nat.eqb n 10 then esc "n"%char
  else if Nat.eqb n 12 then esc "f"%char
  else if Nat.eqb n 13 then esc "r"%char
  else if Nat.eqb n 34 then esc dquote
  else if Nat.eqb n 92 then esc backslash
  else if Nat.ltb n 32 then
    String backslash
      (String "u" (String "0" (String "0"
        (String (hex_digit (n / 16)) (String (hex_digit (n mod 16)) EmptyString)))))
  else String c EmptyString.

Fixpoint quote_body (s : string) : string :=
  match s with
  | EmptyString => EmptyString
  | String c rest => quote_char c ++ quote_body rest
  end.

Definition quote_json_string (s : string) : string :=
  String dquote (quote_body s ++ String dquote EmptyString).

Definition type_error (msg : string) : JsValue := JError "TypeError" msg.

(** The closing step of SerializeJSONObject and SerializeJSONArray. *)
Definition wrap (opening closing gap stepback indent : string)
    (partial : list string) : string :=
  match partial with
  | [] => opening ++ closing
  | _ =>
      if String.eqb gap EmptyString
      then opening ++ join "," partial ++ closing
      else opening ++ newline ++ indent
           ++ join ("," ++ newline ++ indent) partial
           ++ newline ++ stepback ++ closing
  end.

(** SerializeJSONProperty: [None] stands for [undefined]. *)
Fixpoint serialize (gap indent : string) (v : JsValue) : Completion (option string) :=
  match v with
  | JUndefined => Normal None
  | JNull => Normal (Some "null")
  | JBool true => Normal (Some "true")
  | JBool false => Normal (Some "false")
  | JNum z => Normal (Some (number_to_string z))
  | JBigInt _ => Abrupt (type_error "Do not know how to serialize a BigInt")
  | JStr s => Normal (Some (quote_json_string s))
  | JError _ _ => Normal (Some "{}")
  | JArr items =>
      let deeper := indent ++ gap in
      let fix elements (l : list JsValue) : Completion (list string) :=
        match l with
        | [] => Normal []
        | x :: rest =>
            match serialize gap deeper x with
            | Abrupt e => Abrupt e
            | Normal o =>
                match elements rest with
                | Abrupt e => Abrupt e
                | Normal strs =>
                    Normal (match o with Some s => s | None => "null" end :: strs)
                end
            end
        end in
      match elements items with
      | Abrupt e => Abrupt e
      | Normal partial => Normal (Some (wrap "[" "]" gap indent deeper partial))
      end
  | JObj props =>
      let deeper := indent ++ gap in
      let colon := if String.eqb gap EmptyString then ":" else ": " in
      let fix members (l : list (string * JsValue)) : Completion (list string) :=
        match l with
        | [] => Normal []
        | (k, x) :: rest =>
            match serialize gap deeper x with
            | Abrupt e => Abrupt e
            | Normal o =>
                match members rest with
                | Abrupt e => Abrupt e
                | Normal strs =>
                    Normal (match o with
                            | Some s => (quote_json_string k ++ colon ++ s) :: strs
                            | None => strs
                            end)
                end
            end
        end in
      match members props with
      | Abrupt e => Abrupt e
      | Normal partial => Normal (Some (wrap "{" "}" gap indent deeper partial))
      end
  end.

Definition of_serialized (r : Completion (option string)) : Completion JsValue :=
  match r with
  | Abrupt e => Abrupt e
  | Normal (Some s) => Normal (JStr s)
  | Normal None => Normal JUndefined
  end.

(** [JSON.stringify(v)] and [JSON.stringify(v, null, 2)]. *)
Definition JSON_stringify (v : JsValue) : Completion JsValue :=
  of_serialized (serialize EmptyString EmptyString v).

Definition JSON_stringify_indent2 (v : JsValue) : Completion JsValue :=
  of_serialized (serialize "  " EmptyString v).

End Js.
Import Js.

(** ** The text helpers of the pages *)

(** [getErrorMessage] of the llama2.c and the two SmolLM2 pages. *)
Definition getErrorMessage (err : JsValue) : string :=
  match err with
  | JError _ message => message
  | _ => to_string err
  end.

(** The conversion written out in the catch blocks of the DistilGPT-2
    and Phi-3 pages:
    [e instanceof Error ? e.message : typeof e === "string" ? e : JSON.stringify(e)]. *)
Definition thrown_message (e : JsValue) : Completion JsValue :=
  match e with
  | JError _ message => Normal (JStr message)
  | _ => if is_string e then Normal e else JSON_stringify e
  end.

(** A template literal [`prefix${x}`]. *)
Definition template (prefix : string) (x : JsValue) : string :=
  prefix ++ to_string x.

(** [`headline\n\n${getErrorMessage(err)}`] *)
Definition failure_text (headline : string) (err : JsValue) : string :=
  (headline ++ newline ++ newline) ++ getErrorMessage err.

Definition nonempty_array (v : JsValue) : bool :=
  match v with JArr (_ :: _) => true | _ => false end.

(** [gt[gt.length - 1]] *)
Definition last_item (v : JsValue) : JsValue :=
  match v with JArr l => last l JUndefined | _ => JUndefined end.

Module Phi3Text.

Definition isChatMessage (x : JsValue) : bool :=
  is_object x && has_key "role" x && has_key "content" x
  && is_string (get_prop "role" x) && is_string (get_prop "content" x).

Definition getGeneratedText (obj : JsValue) : JsValue :=
  if is_object obj && has_key "generated_text" obj
  then get_prop "generated_text" obj
  else JUndefined.

(** The chat-style tail shared by the two branches: the content of the
    last message, or the stringified [generated_text]. *)
Definition last_content_or_stringify (gt : JsValue) : Completion JsValue :=
  let last := last_item gt in
  if isChatMessage last then Normal (get_prop "content" last)
  else JSON_stringify gt.

Definition extractText (result : JsValue) : Completion JsValue :=
  let first_item : option (Completion JsValue) :=
    if is_array result && nonempty_array result then
      let gt := getGeneratedText (get_index0 result) in
      if is_string gt then Some (Normal gt)
      else if is_array gt && nonempty_array gt
           then Some (last_content_or_stringify gt)
           else None
    else None in
  match first_item with
  | Some r => r
  | None =>
      let gt := getGeneratedText result in
      if is_string gt then Normal gt
      else if is_array gt && nonempty_array gt then last_content_or_stringify gt
      else if is_string result then Normal result
      else JSON_stringify result
  end.

End Phi3Text.

Module DistilText.

Definition isTextGenItem (x : JsValue) : bool :=
  is_object x && has_key "generated_text" x
  && is_string (get_prop "generated_text" x).

(** The tail of the generator closure of the DistilGPT-2 page. *)
Definition extract (result : JsValue) : Completion JsValue :=
  if is_array result && nonempty_array result && isTextGenItem (get_index0 result)
  then Normal (get_prop "generated_text" (get_index0 result))
  else if isTextGenItem result then Normal (get_prop "generated_text" result)
  else if is_string result then Normal result
  else JSON_stringify result.

End DistilText.

Module SmolText.

(** [result?.[0]?.generated_text] *)
Definition first_generated_text (result : JsValue) : JsValue :=
  if is_nullish result then JUndefined
  else let item := get_index0 result in
       if is_nullish item then JUndefined else get_prop "generated_text" item.

(** [extractText] of the two SmolLM2 pages (the same text in both). *)
Definition extractText (result : JsValue) : Completion JsValue :=
  let v := first_generated_text result in
  if is_string v then Normal v
  else match JSON_stringify_indent2 result with
       | Normal r => Normal r
       | Abrupt _ => Normal (JStr (to_string result))
       end.

End SmolText.

Module LlamaText.

(** [result[0]?.generated_text ?? ""]; indexing [null] or [undefined]
    throws. *)
Definition first_text_or_empty (result : JsValue) : Completion JsValue :=
  if is_nullish result
  then Abrupt (type_error ("Cannot read properties of " ++ to_string result
                           ++ " (reading '0')"))
  else
    let item := get_index0 result in
    let text := if is_nullish item then JUndefined
                else get_prop "generated_text" item in
    Normal (nullish_coalesce text (JStr EmptyString)).


End LlamaText.

(** ** The inference library, as the pages see it *)
Module Lib.

Record PipelineOptions : Type := {
  device : option string;
  dtype : option string
}.

Definition no_options : PipelineOptions := {| device := None; dtype := None |}.

Record GenOptions : Type := {
  max_new_tokens : Z;
  do_sample : bool;
  temperature : option QArith_base.Q;
  top_p : option QArith_base.Q;
  repetition_penalty : option QArith_base.Q
}.

(** The opaque handle of a loaded model; [dispose] is optional. *)
Record Pipeline : Type := {
  pipe_id : nat;
  has_dispose : bool
}.

(** The awaited calls into the library, indexed by what they resolve to. *)
Inductive LibCall : Type -> Type :=
| Import : LibCall unit
| CreatePipeline (task model : string) (opts : PipelineOptions) : LibCall Pipeline
| Invoke (p : Pipeline) (input : JsValue) (opts : GenOptions) : LibCall JsValue
| Dispose (p : Pipeline) : LibCall unit.

Inductive Outcome (A : Type) : Type :=
| Resolved (a : A)
| Rejected (e : JsValue).
Arguments Resolved {A} a.
Arguments Rejected {A} e.

(** A model load or a generation (and not a release). *)
Definition is_load_or_generation {A} (c : LibCall A) : bool :=
  match c with
  | Import | CreatePipeline _ _ _ | Invoke _ _ _ => true
  | Dispose _ => false
  end.

Definition is_generation {A} (c : LibCall A) : bool :=
  match c with Invoke _ _ _ => true | _ => false end.

Definition is_load {A} (c : LibCall A) : bool :=
  match c with Import | CreatePipeline _ _ _ => true | _ => false end.

End Lib.
Import Lib.

(** ** Asynchronous functions

    An async function is a tree: synchronous effects of the page
    ([Perform]: state setters, writes to refs and flags), reads of the
    mutable cells ([Read]), and suspensions on a library promise
    ([Await]), resumed with its outcome.  [Eff] and [Cells] are the
    page's own. *)
Section AsyncFunctions.

Context {Eff Cells : Type}.

Inductive Async (R : Type) : Type :=
| Ret (r : R)
| Throw (e : JsValue)
| Perform (e : Eff) (k : Async R)
| Read (k : Cells -> Async R)
| Await (A : Type) (c : LibCall A) (k : Outcome A -> Async R).
Arguments Ret {R} r.
Arguments Throw {R} e.
Arguments Perform {R} e k.
Arguments Read {R} k.
Arguments Await {R A} c k.

Fixpoint bind {R S} (p : Async R) (f : R -> Async S) : Async S :=
  match p with
  | Ret r => f r
  | Throw e => Throw e
  | Perform e k => Perform e (bind k f)
  | Read k => Read (fun cells => bind (k cells) f)
  | Await c k => Await c (fun o => bind (k o) f)
  end.

(** [try { body } catch (err) { handler }] *)
Fixpoint try_catch {R} (body : Async R) (handler : JsValue -> Async R) : Async R :=
  match body with
  | Ret r => Ret r
  | Throw e => handler e
  | Perform e k => Perform e (try_catch k handler)
  | Read k => Read (fun cells => try_catch (k cells) handler)
  | Await c k => Await c (fun o => try_catch (k o) handler)
  end.

(** [try { body } finally { cleanup }]: the cleanup runs on every
    completion of the body; an abrupt cleanup replaces the body's
    completion. *)
Fixpoint try_finally {R} (body : Async R) (cleanup : Async unit) : Async R :=
  match body with
  | Ret r => bind cleanup (fun _ => Ret r)
  | Throw e => bind cleanup (fun _ => Throw e)
  | Perform e k => Perform e (try_finally k cleanup)
  | Read k => Read (fun cells => try_finally (k cells) cleanup)
  | Await c k => Await c (fun o => try_finally (k o) cleanup)
  end.

(** [await c]: the resolved value, or the rejection rethrown. *)
Definition await {A} (c : LibCall A) : Async A :=
  Await c (fun o => match o with
                    | Resolved a => Ret a
                    | Rejected e => Throw e
                    end).

Definition perform (e : Eff) : Async unit := Perform e (Ret tt).

Definition read {A} (f : Cells -> A) : Async A := Read (fun cells => Ret (f cells)).

(** A synchronous helper that may throw. *)
Definition lift {A} (c : Completion A) : Async A :=
  match c with
  | Normal a => Ret a
  | Abrupt e => Throw e
  end.

(** *** Running one call to completion

    The library answers the [n]-th suspension of the call with
    [oracle n]; while the call is suspended there, the rest of the page
    may change the cells ([world n]: an effect cleanup setting its
    flag). *)
Inductive Obs : Type :=
| Did (e : Eff)
| Awaited (n : nat) (A : Type) (c : LibCall A) (o : Outcome A).
Arguments Awaited n {A} c o.

Definition Oracle : Type := nat -> forall A, LibCall A -> Outcome A.

Record Run (R : Type) : Type := {
  trace : list Obs;
  final_cells : Cells;
  completion : Completion R
}.
Arguments trace {R} _.
Arguments final_cells {R} _.
Arguments completion {R} _.

Variable apply_cell : Eff -> Cells -> Cells.

Definition observe {R} (o : Obs) (r : Run R) : Run R :=
  {| trace := o :: trace r;
     final_cells := final_cells r;
     completion := completion r |}.

Fixpoint exec {R} (oracle : Oracle) (world : nat -> Cells -> Cells)
    (p : Async R) (n : nat) (cells : Cells) : Run R :=
  match p with
  | Ret r => {| trace := []; final_cells := cells; completion := Normal r |}
  | Throw e => {| trace := []; final_cells := cells; completion := Abrupt e |}
  | Perform e k => observe (Did e) (exec oracle world k n (apply_cell e cells))
  | Read k => exec oracle world (k cells) n cells
  | Await c k =>
      let o := oracle n _ c in
      observe (Awaited n c o) (exec oracle world (k o) (S n) (world n cells))
  end.

(** The effects performed, in order. *)
Fixpoint effects (t : list Obs) : list Eff :=
  match t with
  | [] => []
  | Did e :: rest => e :: effects rest
  | Awaited _ _ _ :: rest => effects rest
  end.

(** What the call did after it resumed from its [m]-th suspension. *)
Fixpoint after_await (m : nat) (t : list Obs) : list Obs :=
  match t with
  | [] => []
  | Did _ :: rest => after_await m rest
  | Awaited n _ _ :: rest => if Nat.eqb n m then rest else after_await m rest
  end.


(** The pipeline constructions the run asked for: task, model, options. *)
Fixpoint pipeline_requests (t : list Obs) : list (string * string * PipelineOptions) :=
  match t with
  | [] => []
  | Did _ :: rest => pipeline_requests rest
  | Awaited _ c _ :: rest =>
      match c with
      | CreatePipeline task model opts => (task, model, opts) :: pipeline_requests rest
      | _ => pipeline_requests rest
      end
  end.

(** The pipelines the run obtained from the library. *)
Fixpoint created (t : list Obs) : list Pipeline :=
  match t with
  | [] => []
  | Did _ :: rest => created rest
  | Awaited _ c o :: rest =>
      match c in LibCall A return Outcome A -> list Pipeline with
      | CreatePipeline _ _ _ =>
          fun o => match o with
                   | Resolved p => p :: created rest
                   | Rejected _ => created rest
                   end
      | _ => fun _ => created rest
      end o
  end.

(** The pipelines the run invoked, and those it called [dispose()] on. *)
Fixpoint invoked (t : list Obs) : list Pipeline :=
  match t with
  | [] => []
  | Did _ :: rest => invoked rest
  | Awaited _ c _ :: rest =>
      match c with
      | Invoke p _ _ => p :: invoked rest
      | _ => invoked rest
      end
  end.

Fixpoint disposed (t : list Obs) : list Pipeline :=
  match t with
  | [] => []
  | Did _ :: rest => disposed rest
  | Awaited _ c _ :: rest =>
      match c with
      | Dispose p => p :: disposed rest
      | _ => disposed rest
      end
  end.

(** *** The page as a transition system

    Between two suspensions a handler runs to its next [Await]
    without interleaving; the suspended calls wait in [pending]. *)
Inductive Task : Type :=
| Suspended (A : Type) (c : LibCall A) (k : Outcome A -> Async unit).
Arguments Suspended {A} c k.

Definition answer_type (t : Task) : Type :=
  match t with @Suspended A _ _ => A end.

Definition resume (t : Task) : Outcome (answer_type t) -> Async unit :=
  match t with Suspended _ k => k end.

Definition task_in_flight (t : Task) : bool :=
  match t with Suspended c _ => is_load_or_generation c end.

Context {UI : Type}.
Variable apply_ui : Eff -> UI -> UI.

Record Config : Type := {
  ui : UI;
  cells : Cells;
  pending : list Task;
  mounted : bool
}.

(** Run a handler up to its first suspension (or to its end; a throw
    that reaches the top is an unhandled rejection). *)
Fixpoint run_sync (p : Async unit) (cfg : Config) : Config :=
  match p with
  | Ret _ => cfg
  | Throw _ => cfg
  | Perform e k =>
      run_sync k {| ui := apply_ui e (ui cfg);
                    cells := apply_cell e (cells cfg);
                    pending := pending cfg;
                    mounted := mounted cfg |}
  | Read k => run_sync (k (cells cfg)) cfg
  | Await c k =>
      {| ui := ui cfg;
         cells := cells cfg;
         pending := (pending cfg ++ [Suspended c k])%list;
         mounted := mounted cfg |}
  end.

(** Where a handler suspends first, if it does. *)
Fixpoint first_suspension (p : Async unit) (cells : Cells) : option Task :=
  match p with
  | Ret _ => None
  | Throw _ => None
  | Perform e k => first_suspension k (apply_cell e cells)
  | Read k => first_suspension (k cells) cells
  | Await c k => Some (Suspended c k)
  end.

(** The task a handler leaves behind ([otherwise] if it leaves none). *)
Definition suspension_of (p : Async unit) (cells : Cells) (otherwise : Task) : Task :=
  match first_suspension p cells with
  | Some t => t
  | None => otherwise
  end.

Fixpoint remove_nth {X} (i : nat) (l : list X) : list X :=
  match l, i with
  | [], _ => []
  | _ :: rest, O => rest
  | x :: rest, S j => x :: remove_nth j rest
  end.

Definition drop_task (i : nat) (cfg : Config) : Config :=
  {| ui := ui cfg;
     cells := cells cfg;
     pending := remove_nth i (pending cfg);
     mounted := mounted cfg |}.

Definition unmount (cfg : Config) : Config :=
  {| ui := ui cfg;
     cells := cells cfg;
     pending := pending cfg;
     mounted := false |}.

(** What a page is made of. *)
Record Page : Type := {
  initial_ui : UI;
  initial_cells : Cells;
  mount_effect : Async unit;
  effect_cleanup : Async unit;
  generate_disabled : UI -> bool;
  (** the flags that say a load or a generation is going on *)
  busy : UI -> bool;
  on_generate : UI -> Async unit;
  (** the other controls: the prompt box, a Clear button *)
  other_control : UI -> Async unit -> Prop
}.

Variable page : Page.

Definition first_render : Config :=
  {| ui := initial_ui page;
     cells := initial_cells page;
     pending := [];
     mounted := true |}.

Inductive step : Config -> Config -> Prop :=
| step_generate cfg :
    mounted cfg = true ->
    generate_disabled page (ui cfg) = false ->
    step cfg (run_sync (on_generate page (ui cfg)) cfg)
| step_control cfg handler :
    mounted cfg = true ->
    other_control page (ui cfg) handler ->
    step cfg (run_sync handler cfg)
| step_settle cfg i t (o : Outcome (answer_type t)) :
    nth_error (pending cfg) i = Some t ->
    step cfg (run_sync (resume t o) (drop_task i cfg))
| step_unmount cfg :
    mounted cfg = true ->
    step cfg (run_sync (effect_cleanup page) (unmount cfg)).

Inductive reachable : Config -> Prop :=
| reach_mount : reachable (run_sync (mount_effect page) first_render)
| reach_step cfg cfg' : reachable cfg -> step cfg cfg' -> reachable cfg'.

Definition in_flight (cfg : Config) : list Task :=
  filter task_in_flight (pending cfg).

(** The trigger is guarded: in every reachable state at most one load
    or generation is in flight, and while one is, or while the flags of
    the page say so, the Generate button is disabled. *)
Definition guarded : Prop :=
  forall cfg, reachable cfg ->
    (List.length (in_flight cfg) <= 1)%nat
    /\ (in_flight cfg <> [] -> generate_disabled page (ui cfg) = true)
    /\ (busy page (ui cfg) = true -> generate_disabled page (ui cfg) = true).

End AsyncFunctions.

Arguments Async : clear implicits.
Arguments Ret {Eff Cells R} r.
Arguments Throw {Eff Cells R} e.
Arguments Perform {Eff Cells R} e k.
Arguments Read {Eff Cells R} k.
Arguments Await {Eff Cells R A} c k.
Arguments Did {Eff} e.
Arguments Awaited {Eff} n {A} c o.
Arguments Suspended {Eff Cells A} c k.
Arguments ui {Eff Cells UI} _.
Arguments cells {Eff Cells UI} _.
Arguments pending {Eff Cells UI} _.
Arguments mounted {Eff Cells UI} _.
Arguments trace {Eff Cells R} _.
Arguments final_cells {Eff Cells R} _.
Arguments completion {Eff Cells R} _.
Arguments Obs : clear implicits.
Arguments Task : clear implicits.
Arguments Run : clear implicits.
Arguments Config : clear implicits.
Arguments Page : clear implicits.

Declare Scope async_scope.
Delimit Scope async_scope with async.
Notation "x <- p ;; q" := (bind p (fun x => q))
  (at level 61, p at next level, right associativity) : async_scope.
Notation "p ;; q" := (bind p (fun _ => q))
  (at level 61, right associativity) : async_scope.

Local Open Scope async_scope.

Definition text_generation : string := "text-generation".

(** ** The llama2.c-stories15M page *)
Module Llama.

Record UI : Type := {
  ready : bool;
  loading : bool;
  generating : bool;
  prompt : string;
  output : JsValue;
  generator : option Pipeline
}.

(** The [cancelled] variable of the mount effect. *)
Record Cells : Type := { cancelled : bool }.

Inductive Eff : Type :=
| SetReady (b : bool)
| SetLoading (b : bool)
| SetGenerating (b : bool)
| SetPrompt (s : string)
| SetOutput (v : JsValue)
| SetGenerator (g : option Pipeline)
| SetCancelled.

Definition apply_ui (e : Eff) (u : UI) : UI :=
  match e with
  | SetReady b =>
      {| ready := b; loading := loading u; generating := generating u;
         prompt := prompt u; output := output u; generator := generator u |}
  | SetLoading b =>
      {| ready := ready u; loading := b; generating := generating u;
         prompt := prompt u; output := output u; generator := generator u |}
  | SetGenerating b =>
      {| ready := ready u; loading := loading u; generating := b;
         prompt := prompt u; output := output u; generator := generator u |}
  | SetPrompt s =>
      {| ready := ready u; loading := loading u; generating := generating u;
         prompt := s; output := output u; generator := generator u |}
  | SetOutput v =>
      {| ready := ready u; loading := loading u; generating := generating u;
         prompt := prompt u; output := v; generator := generator u |}
  | SetGenerator g =>
      {| ready := ready u; loading := loading u; generating := generating u;
         prompt := prompt u; output := output u; generator := g |}
  | SetCancelled => u
  end.

Definition apply_cell (e : Eff) (c : Cells) : Cells :=
  match e with
  | SetCancelled => {| cancelled := true |}
  | _ => c
  end.

Definition is_setter (e : Eff) : bool :=
  match e with SetCancelled => false | _ => true end.

Definition model_id : string := "Xenova/llama2.c-stories15M".

Definition gen_options : GenOptions :=
  {| max_new_tokens := 50;
     do_sample := true;
     temperature := Some (QArith_base.Qmake 8 10);
     top_p := Some (QArith_base.Qmake 9 10);
     repetition_penalty := None |}.

Definition unless_cancelled (p : Async Eff Cells unit) : Async Eff Cells unit :=
  c <- read cancelled ;; if negb c then p else Ret tt.

Definition loadModel : Async Eff Cells unit :=
  perform (SetLoading true) ;;
  perform (SetOutput (JStr EmptyString)) ;;
  try_finally
    (try_catch
       (_ <- await Import ;;
        gen <- await (CreatePipeline text_generation model_id no_options) ;;
        unless_cancelled
          (perform (SetGenerator (Some gen)) ;;
           perform (SetReady true)))
       (fun err =>
          unless_cancelled
            (perform (SetOutput
               (JStr (failure_text "Failed to load model." err))))))
    (unless_cancelled (perform (SetLoading false))).

(** [generate], closed over the [generator] and [prompt] of the render
    that created it. *)
Definition generate (u : UI) : Async Eff Cells unit :=
  match generator u with
  | None => Ret tt
  | Some gen =>
      perform (SetGenerating true) ;;
      perform (SetOutput (JStr EmptyString)) ;;
      try_finally
        (try_catch
           (result <- await (Invoke gen (JStr (prompt u)) gen_options) ;;
            text <- lift (LlamaText.first_text_or_empty result) ;;
            perform (SetOutput text))
           (fun err =>
              perform (SetOutput
                (JStr (failure_text "Generation failed." err)))))
        (perform (SetGenerating false))
  end.

Definition button_disabled (u : UI) : bool := negb (ready u) || generating u.

Definition page : Page Eff Cells UI :=
  {| initial_ui := {| ready := false; loading := false; generating := false;
                      prompt := "Once upon a time,";
                      output := JStr EmptyString; generator := None |};
     initial_cells := {| cancelled := false |};
     mount_effect := loadModel;
     effect_cleanup := perform SetCancelled;
     generate_disabled := button_disabled;
     busy := fun u => loading u || generating u;
     on_generate := generate;
     other_control := fun _ h => exists s, h = perform (SetPrompt s) |}.

Definition run {R} := @exec Eff Cells apply_cell R.

(** The string an effect puts in the output field. *)
Definition shown (e : Eff) : option string :=
  match e with
  | SetOutput (JStr s) => Some s
  | _ => None
  end.

(** The suspensions of the page: [loadModel] at the import and at the
    construction of the pipeline, [generate] at the invocation. *)
Definition finished : Task Eff Cells := Suspended Import (fun _ => Ret tt).

Definition importing : Task Eff Cells :=
  suspension_of apply_cell loadModel (initial_cells page) finished.

Definition creating : Task Eff Cells :=
  suspension_of apply_cell (resume importing (Resolved tt)) (initial_cells page)
    finished.

Definition invoking (u : UI) (gen : Pipeline) : Task Eff Cells :=
  suspension_of apply_cell
    (generate (apply_ui (SetGenerator (Some gen)) u)) (initial_cells page) finished.

(** What holds in every reachable state. *)
Inductive Inv : Config Eff Cells UI -> Prop :=
| inv_loading cfg t :
    pending cfg = [t] -> t = importing \/ t = creating ->
    ready (ui cfg) = false -> generating (ui cfg) = false ->
    Inv cfg
| inv_idle cfg :
    pending cfg = [] -> generating (ui cfg) = false ->
    (loading (ui cfg) = true -> ready (ui cfg) = false) ->
    Inv cfg
| inv_generating cfg u gen :
    pending cfg = [invoking u gen] -> generating (ui cfg) = true ->
    (loading (ui cfg) = true -> ready (ui cfg) = false) ->
    Inv cfg.

(** The effect cleanup runs while the load is suspended for the
    [m]-th time. *)
Definition cancel_at (m : nat) : nat -> Cells -> Cells :=
  fun n c => if Nat.eqb n m then apply_cell SetCancelled c else c.

End Llama.

(** ** The DistilGPT-2 and Phi-3 pages

    The two components have the same state, effect and handlers; they
    differ in the constants collected in [Variant]. *)
Module RefPage.

Record Variant : Type := {
  importing_status : string;
  downloading_status : string;
  model_id : string;
  initial_prompt : string;
  make_input : string -> JsValue;
  gen_options : GenOptions;
  extract : JsValue -> Completion JsValue
}.

Record UI : Type := {
  isLoadingModel : bool;
  status : string;
  prompt : string;
  output : JsValue;
  isGenerating : bool
}.

(** [cancelled] of the mount effect, and the [pipe] captured by the
    closure stored in [generatorRef.current]. *)
Record Cells : Type := {
  cancelled : bool;
  generatorRef : option Pipeline
}.

Inductive Eff : Type :=
| SetIsLoadingModel (b : bool)
| SetStatus (s : string)
| SetPrompt (s : string)
| SetOutput (v : JsValue)
| SetIsGenerating (b : bool)
| SetGeneratorRef (p : option Pipeline)
| ConsoleError (e : JsValue)
| SetCancelled.

Definition apply_ui (e : Eff) (u : UI) : UI :=
  match e with
  | SetIsLoadingModel b =>
      {| isLoadingModel := b; status := status u; prompt := prompt u;
         output := output u; isGenerating := isGenerating u |}
  | SetStatus s =>
      {| isLoadingModel := isLoadingModel u; status := s; prompt := prompt u;
         output := output u; isGenerating := isGenerating u |}
  | SetPrompt s =>
      {| isLoadingModel := isLoadingModel u; status := status u; prompt := s;
         output := output u; isGenerating := isGenerating u |}
  | SetOutput v =>
      {| isLoadingModel := isLoadingModel u; status := status u; prompt := prompt u;
         output := v; isGenerating := isGenerating u |}
  | SetIsGenerating b =>
      {| isLoadingModel := isLoadingModel u; status := status u; prompt := prompt u;
         output := output u; isGenerating := b |}
  | SetGeneratorRef _ | ConsoleError _ | SetCancelled => u
  end.

Definition apply_cell (e : Eff) (c : Cells) : Cells :=
  match e with
  | SetGeneratorRef p => {| cancelled := cancelled c; generatorRef := p |}
  | SetCancelled => {| cancelled := true; generatorRef := generatorRef c |}
  | _ => c
  end.

(** The React state setters among the effects. *)
Definition is_setter (e : Eff) : bool :=
  match e with
  | SetIsLoadingModel _ | SetStatus _ | SetPrompt _ | SetOutput _
  | SetIsGenerating _ => true
  | SetGeneratorRef _ | ConsoleError _ | SetCancelled => false
  end.

Section Handlers.

Variable v : Variant.

(** The catch block of both handlers, ending in [set]. *)
Definition report (prefix : string) (set : string -> Eff) (e : JsValue)
  : Async Eff Cells unit :=
  perform (ConsoleError e) ;;
  message <- lift (thrown_message e) ;;
  perform (set (template prefix message)).

Definition init : Async Eff Cells unit :=
  try_finally
    (try_catch
       (perform (SetIsLoadingModel true) ;;
        perform (SetStatus (importing_status v)) ;;
        _ <- await Import ;;
        c <- read cancelled ;;
        if c then Ret tt else
        (perform (SetStatus (downloading_status v)) ;;
         pipe <- await (CreatePipeline text_generation (model_id v) no_options) ;;
         c <- read cancelled ;;
         if c then Ret tt else
         (perform (SetGeneratorRef (Some pipe)) ;;
          perform (SetStatus "Model ready."))))
       (report "Error loading model: " SetStatus))
    (perform (SetIsLoadingModel false)).

(** The closure stored in [generatorRef.current]. *)
Definition generatorFn (pipe : Pipeline) (text : string) : Async Eff Cells JsValue :=
  result <- await (Invoke pipe (make_input v text) (gen_options v)) ;;
  lift (extract v result).

Definition onGenerate (u : UI) : Async Eff Cells unit :=
  gen <- read generatorRef ;;
  match gen with
  | None => Ret tt
  | Some pipe =>
      perform (SetIsGenerating true) ;;
      perform (SetOutput (JStr EmptyString)) ;;
      try_finally
        (try_catch
           (text <- generatorFn pipe (prompt u) ;;
            perform (SetOutput text))
           (report "Error: " (fun s => SetOutput (JStr s))))
        (perform (SetIsGenerating false))
  end.

Definition button_disabled (u : UI) : bool := isLoadingModel u || isGenerating u.

Definition page : Page Eff Cells UI :=
  {| initial_ui := {| isLoadingModel := true; status := "Loading model...";
                      prompt := initial_prompt v;
                      output := JStr EmptyString; isGenerating := false |};
     initial_cells := {| cancelled := false; generatorRef := None |};
     mount_effect := init;
     effect_cleanup := perform SetCancelled;
     generate_disabled := button_disabled;
     busy := fun u => isLoadingModel u || isGenerating u;
     on_generate := onGenerate;
     other_control := fun u h =>
       button_disabled u = false /\ exists s, h = perform (SetPrompt s) |}.

End Handlers.

Definition run {R} := @exec Eff Cells apply_cell R.

(** The string an effect puts in the status or the output field. *)
Definition shown (e : Eff) : option string :=
  match e with
  | SetStatus s => Some s
  | SetOutput (JStr s) => Some s
  | _ => None
  end.

(** The suspensions of the page: [init] at the import and at the
    construction of the pipeline, [onGenerate] inside the stored closure. *)
Definition finished : Task Eff Cells := Suspended Import (fun _ => Ret tt).

Definition importing (v : Variant) : Task Eff Cells :=
  suspension_of apply_cell (init v) (initial_cells (page v)) finished.

Definition creating (v : Variant) : Task Eff Cells :=
  suspension_of apply_cell (resume (importing v) (Resolved tt))
    (initial_cells (page v)) finished.

Definition invoking (v : Variant) (u : UI) (pipe : Pipeline) : Task Eff Cells :=
  suspension_of apply_cell (onGenerate v u)
    {| cancelled := false; generatorRef := Some pipe |} finished.

(** What holds in every reachable state. *)
Inductive Inv (v : Variant) : Config Eff Cells UI -> Prop :=
| inv_loading cfg t :
    pending cfg = [t] -> t = importing v \/ t = creating v ->
    isLoadingModel (ui cfg) = true ->
    Inv v cfg
| inv_idle cfg :
    pending cfg = [] ->
    Inv v cfg
| inv_generating cfg u pipe :
    pending cfg = [invoking v u pipe] -> isGenerating (ui cfg) = true ->
    Inv v cfg.

(** The effect cleanup runs while [init] is suspended for the [m]-th
    time. *)
Definition cancel_at (m : nat) : nat -> Cells -> Cells :=
  fun n c => if Nat.eqb n m then apply_cell SetCancelled c else c.

End RefPage.

Module DistilGPT2.

Definition variant : RefPage.Variant :=
  {| RefPage.importing_status := "Importing transformers...";
     RefPage.downloading_status :=
       "Downloading/initializing model (first run may take a bit)...";
     RefPage.model_id := "Xenova/distilgpt2";
     RefPage.initial_prompt := "Once upon a time,";
     RefPage.make_input := JStr;
     RefPage.gen_options :=
       {| max_new_tokens := 64;
          do_sample := true;
          temperature := Some (QArith_base.Qmake 8 10);
          top_p := Some (QArith_base.Qmake 9 10);
          repetition_penalty := None |};
     RefPage.extract := DistilText.extract |}.

End DistilGPT2.

Module Phi3.

(** [[{ role: "user", content: text }]] *)
Definition messages (text : string) : JsValue :=
  JArr [JObj [("role", JStr "user"); ("content", JStr text)]].

Definition variant : RefPage.Variant :=
  {| RefPage.importing_status := "Importing Transformers.js...";
     RefPage.downloading_status :=
       "Downloading/initializing Phi-3 (first load can be large; WebGPU recommended)...";
     RefPage.model_id := "Xenova/Phi-3-mini-4k-instruct";
     RefPage.initial_prompt := "Solve the equation: x^2 - 3x + 2 = 0";
     RefPage.make_input := messages;
     RefPage.gen_options :=
       {| max_new_tokens := 256;
          do_sample := false;
          temperature := None;
          top_p := None;
          repetition_penalty := None |};
     RefPage.extract := Phi3Text.extractText |}.

End Phi3.

Definition smol_model_id : string := "HuggingFaceTB/SmolLM2-135M-Instruct".

(** ** The disposable SmolLM2 page *)
Module SmolDisposable.

Inductive Status : Type := Idle | Loading | Running | Error.


Record UI : Type := {
  status : Status;
  prompt : string;
  output : JsValue
}.

Record Cells : Type := { pipelineRef : option Pipeline }.

Inductive Eff : Type :=
| SetStatus (s : Status)
| SetPrompt (s : string)
| SetOutput (v : JsValue)
| SetPipelineRef (p : option Pipeline)
| EnvAssign (key : string) (b : bool).

Definition apply_ui (e : Eff) (u : UI) : UI :=
  match e with
  | SetStatus s => {| status := s; prompt := prompt u; output := output u |}
  | SetPrompt s => {| status := status u; prompt := s; output := output u |}
  | SetOutput v => {| status := status u; prompt := prompt u; output := v |}
  | SetPipelineRef _ | EnvAssign _ _ => u
  end.

Definition apply_cell (e : Eff) (c : Cells) : Cells :=
  match e with
  | SetPipelineRef p => {| pipelineRef := p |}
  | _ => c
  end.

Definition pipeline_options : PipelineOptions :=
  {| device := Some "wasm"; dtype := Some "q4" |}.

Definition gen_options : GenOptions :=
  {| max_new_tokens := 64;
     do_sample := true;
     temperature := Some (QArith_base.Qmake 2 10);
     top_p := Some (QArith_base.Qmake 9 10);
     repetition_penalty := None |}.

Definition loadPipeline : Async Eff Cells Pipeline :=
  current <- read pipelineRef ;;
  match current with
  | Some p => Ret p
  | None =>
      _ <- await Import ;;
      perform (EnvAssign "allowLocalModels" false) ;;
      perform (EnvAssign "useBrowserCache" true) ;;
      p <- await (CreatePipeline text_generation smol_model_id pipeline_options) ;;
      perform (SetPipelineRef (Some p)) ;;
      Ret p
  end.

Definition disposePipeline : Async Eff Cells unit :=
  p <- read pipelineRef ;;
  perform (SetPipelineRef None) ;;
  match p with
  | Some p =>
      if has_dispose p
      then try_catch (await (Dispose p)) (fun _ => Ret tt)
      else Ret tt
  | None => Ret tt
  end.

Definition runOnceAndFree (u : UI) : Async Eff Cells unit :=
  perform (SetStatus Loading) ;;
  perform (SetOutput (JStr EmptyString)) ;;
  try_finally
    (try_catch
       (gen <- loadPipeline ;;
        perform (SetStatus Running) ;;
        result <- await (Invoke gen (JStr (prompt u)) gen_options) ;;
        text <- lift (SmolText.extractText result) ;;
        perform (SetOutput text) ;;
        perform (SetStatus Idle))
       (fun err =>
          perform (SetStatus Error) ;;
          perform (SetOutput
            (JStr (failure_text "Generation failed." err)))))
    disposePipeline.

Definition button_disabled (u : UI) : bool :=
  match status u with
  | Loading | Running => true
  | Idle | Error => false
  end.


Definition page : Page Eff Cells UI :=
  {| initial_ui := {| status := Idle;
                      prompt := "Answer in one sentence: What is the capital of France?";
                      output := JStr EmptyString |};
     initial_cells := {| pipelineRef := None |};
     mount_effect := Ret tt;
     effect_cleanup := Ret tt;
     generate_disabled := button_disabled;
     busy := fun u => match status u with
                      | Loading | Running => true
                      | Idle | Error => false
                      end;
     on_generate := runOnceAndFree;
     other_control := fun _ h => exists s, h = perform (SetPrompt s) |}.

Definition run {R} := @exec Eff Cells apply_cell R.

Definition shown (e : Eff) : option string :=
  match e with
  | SetOutput (JStr s) => Some s
  | _ => None
  end.

(** The suspensions of the page: a run at the import, at the
    construction of the pipeline, at the invocation, and at the
    [dispose()] of its finally block. *)
Definition finished : Task Eff Cells := Suspended Import (fun _ => Ret tt).

Definition importing (u : UI) : Task Eff Cells :=
  suspension_of apply_cell (runOnceAndFree u) {| pipelineRef := None |} finished.

Definition creating (u : UI) : Task Eff Cells :=
  suspension_of apply_cell (resume (importing u) (Resolved tt))
    {| pipelineRef := None |} finished.

Definition invoking (u : UI) (p : Pipeline) : Task Eff Cells :=
  suspension_of apply_cell (resume (creating u) (Resolved p))
    {| pipelineRef := None |} finished.

Definition disposing (id : nat) : Task Eff Cells :=
  suspension_of apply_cell (disposePipeline ;; Ret tt)
    {| pipelineRef := Some {| pipe_id := id; has_dispose := true |} |} finished.

Definition disposal (t : Task Eff Cells) : Prop := exists id, t = disposing id.

(** The load or generation in flight, with the status and the handle
    that go with it. *)
Inductive Active : list (Task Eff Cells) -> UI -> Cells -> Prop :=
| act_none u c :
    pipelineRef c = None -> Active [] u c
| act_loading u c t v :
    t = importing v \/ t = creating v ->
    status u = Loading -> pipelineRef c = None ->
    Active [t] u c
| act_running u c v p :
    status u = Running -> pipelineRef c = Some p ->
    Active [invoking v p] u c.

(** What holds in every reachable state: releases still pending, then
    at most one load or generation. *)
Definition Inv (cfg : Config Eff Cells UI) : Prop :=
  exists releases active,
    pending cfg = (releases ++ active)%list
    /\ Forall disposal releases
    /\ Active active (ui cfg) (cells cfg).

End SmolDisposable.

(** ** The min-footprint SmolLM2 page *)
Module SmolMinFootprint.

Record UI : Type := {
  ready : bool;
  loadingModel : bool;
  generating : bool;
  prompt : string;
  output : JsValue;
  generator : option Pipeline
}.

(** The global [navigator]: undeclared ([None]), or an object with the
    listed properties. *)
Record Cells : Type := { navigator : option (list string) }.

Inductive Eff : Type :=
| SetReady (b : bool)
| SetLoadingModel (b : bool)
| SetGenerating (b : bool)
| SetPrompt (s : string)
| SetOutput (v : JsValue)
| SetGenerator (g : option Pipeline)
| EnvAssign (key : string) (b : bool).

Definition apply_ui (e : Eff) (u : UI) : UI :=
  match e with
  | SetReady b =>
      {| ready := b; loadingModel := loadingModel u; generating := generating u;
         prompt := prompt u; output := output u; generator := generator u |}
  | SetLoadingModel b =>
      {| ready := ready u; loadingModel := b; generating := generating u;
         prompt := prompt u; output := output u; generator := generator u |}
  | SetGenerating b =>
      {| ready := ready u; loadingModel := loadingModel u; generating := b;
         prompt := prompt u; output := output u; generator := generator u |}
  | SetPrompt s =>
      {| ready := ready u; loadingModel := loadingModel u; generating := generating u;
         prompt := s; output := output u; generator := generator u |}
  | SetOutput v =>
      {| ready := ready u; loadingModel := loadingModel u; generating := generating u;
         prompt := prompt u; output := v; generator := generator u |}
  | SetGenerator g =>
      {| ready := ready u; loadingModel := loadingModel u; generating := generating u;
         prompt := prompt u; output := output u; generator := g |}
  | EnvAssign _ _ => u
  end.

Definition apply_cell (e : Eff) (c : Cells) : Cells := c.

Definition gen_options : GenOptions :=
  {| max_new_tokens := 64;
     do_sample := true;
     temperature := Some (QArith_base.Qmake 2 10);
     top_p := Some (QArith_base.Qmake 9 10);
     repetition_penalty := Some (QArith_base.Qmake 105 100) |}.

(** [typeof navigator !== "undefined" && "gpu" in navigator] *)
Definition hasWebGPU (nav : option (list string)) : bool :=
  match nav with
  | None => false
  | Some keys => existsb (String.eqb "gpu") keys
  end.

Definition pipeline_options (nav : option (list string)) : PipelineOptions :=
  {| device := Some (if hasWebGPU nav then "webgpu" else "wasm");
     dtype := None |}.

Definition loadModel : Async Eff Cells unit :=
  perform (SetLoadingModel true) ;;
  perform (SetOutput (JStr EmptyString)) ;;
  try_finally
    (try_catch
       (_ <- await Import ;;
        nav <- read navigator ;;
        perform (EnvAssign "allowLocalModels" false) ;;
        gen <- await (CreatePipeline text_generation smol_model_id
                        (pipeline_options nav)) ;;
        perform (SetGenerator (Some gen)) ;;
        perform (SetReady true))
       (fun err =>
          perform (SetOutput
            (JStr (failure_text "Failed to load model." err))) ;;
          perform (SetReady false) ;;
          perform (SetGenerator None)))
    (perform (SetLoadingModel false)).

(** [runOnceAndFree], closed over the [generator] and [prompt] of the
    render that created it: both null checks read that same value. *)
Definition runOnceAndFree (u : UI) : Async Eff Cells unit :=
  (match generator u with
   | None => loadModel
   | Some _ => Ret tt
   end) ;;
  match generator u with
  | None => Ret tt
  | Some gen =>
      perform (SetGenerating true) ;;
      perform (SetOutput (JStr EmptyString)) ;;
      try_finally
        (try_catch
           (result <- await (Invoke gen (JStr (prompt u)) gen_options) ;;
            text <- lift (SmolText.extractText result) ;;
            perform (SetOutput text))
           (fun err =>
              perform (SetOutput
                (JStr (failure_text "Generation failed." err)))))
        (perform (SetGenerating false) ;;
         perform (SetGenerator None) ;;
         perform (SetReady false))
  end.

(** The Clear button. *)
Definition clear : Async Eff Cells unit :=
  perform (SetGenerator None) ;;
  perform (SetReady false) ;;
  perform (SetOutput (JStr EmptyString)).

Definition button_disabled (u : UI) : bool := generating u || loadingModel u.

Definition page (nav : option (list string)) : Page Eff Cells UI :=
  {| initial_ui := {| ready := false; loadingModel := false; generating := false;
                      prompt := "Answer in one sentence: What is the capital of France?";
                      output := JStr EmptyString; generator := None |};
     initial_cells := {| navigator := nav |};
     mount_effect := loadModel;
     effect_cleanup := Ret tt;
     generate_disabled := button_disabled;
     busy := fun u => loadingModel u || generating u;
     on_generate := runOnceAndFree;
     other_control := fun _ h =>
       h = clear \/ exists s, h = perform (SetPrompt s) |}.

Definition run {R} := @exec Eff Cells apply_cell R.

Definition shown (e : Eff) : option string :=
  match e with
  | SetOutput (JStr s) => Some s
  | _ => None
  end.

(** The suspensions of the page: [loadModel] started by the mount
    effect or by a click with a null generator, at the import and at the
    construction of the pipeline; [runOnceAndFree] at the invocation. *)
Definition finished : Task Eff Cells := Suspended Import (fun _ => Ret tt).

Definition no_navigator : Cells := {| navigator := None |}.

Definition mount_importing : Task Eff Cells :=
  suspension_of apply_cell loadModel no_navigator finished.

Definition mount_creating (nav : option (list string)) : Task Eff Cells :=
  suspension_of apply_cell (resume mount_importing (Resolved tt))
    {| navigator := nav |} finished.

Definition click_importing : Task Eff Cells :=
  suspension_of apply_cell
    (runOnceAndFree (apply_ui (SetGenerator None) (initial_ui (page None))))
    no_navigator finished.

Definition click_creating (nav : option (list string)) : Task Eff Cells :=
  suspension_of apply_cell (resume click_importing (Resolved tt))
    {| navigator := nav |} finished.

Definition invoking (u : UI) (gen : Pipeline) : Task Eff Cells :=
  suspension_of apply_cell
    (runOnceAndFree (apply_ui (SetGenerator (Some gen)) u)) no_navigator finished.

Definition load_task (t : Task Eff Cells) : Prop :=
  t = mount_importing \/ t = click_importing
  \/ exists nav, t = mount_creating nav \/ t = click_creating nav.

(** What holds in every reachable state. *)
Inductive Inv : Config Eff Cells UI -> Prop :=
| inv_loading cfg t :
    pending cfg = [t] -> load_task t -> loadingModel (ui cfg) = true ->
    Inv cfg
| inv_idle cfg :
    pending cfg = [] ->
    Inv cfg
| inv_generating cfg u gen :
    pending cfg = [invoking u gen] -> generating (ui cfg) = true ->
    Inv cfg.

End SmolMinFootprint.

(** ** Reference descriptions of the helpers

    The case analyses that the text helpers are compared with, written
    by shape of the value rather than by the tests of the code. *)
Module Rules.

(** The [generated_text] an object carries, when it is a string or a
    non-empty array. *)
Definition carried_generated_text (x : JsValue) : option JsValue :=
  match x with
  | JObj props =>
      match lookup "generated_text" props with
      | Some (JStr s) => Some (JStr s)
      | Some (JArr (m :: ms)) => Some (JArr (m :: ms))
      | _ => None
      end
  | _ => None
  end.

(** The content of a chat message: an object with a string [role] and a
    string [content]. *)
Definition chat_message_content (m : JsValue) : option string :=
  match m with
  | JObj props =>
      match lookup "role" props, lookup "content" props with
      | Some (JStr _), Some (JStr c) => Some c
      | _, _ => None
      end
  | _ => None
  end.

(** The rules for the Phi-3 helper.  [other_array gt result] is what is
    returned when the carried [generated_text] is a non-empty array whose
    last element is not a chat message. *)
Definition phi3_extract
    (other_array : JsValue -> JsValue -> Completion JsValue)
    (result : JsValue) : Completion JsValue :=
  let from (gt : JsValue) :=
    match gt with
    | JStr s => Normal (JStr s)
    | _ =>
        match chat_message_content (last_item gt) with
        | Some c => Normal (JStr c)
        | None => other_array gt result
        end
    end in
  match result with
  | JArr (x :: _) =>
      match carried_generated_text x with
      | Some gt => from gt
      | None => JSON_stringify result
      end
  | JObj _ =>
      match carried_generated_text result with
      | Some gt => from gt
      | None => JSON_stringify result
      end
  | JStr _ => Normal result
  | _ => JSON_stringify result
  end.

(** As stated: every remaining case stringifies the result. *)
Definition phi3_extract_stated : JsValue -> Completion JsValue :=
  phi3_extract (fun _ result => JSON_stringify result).

(** As the code has it: that case stringifies the [generated_text]. *)
Definition phi3_extract_amended : JsValue -> Completion JsValue :=
  phi3_extract (fun gt _ => JSON_stringify gt).

(** The string [generated_text] of an item. *)
Definition item_text (x : JsValue) : option string :=
  match x with
  | JObj props =>
      match lookup "generated_text" props with
      | Some (JStr s) => Some s
      | _ => None
      end
  | _ => None
  end.

(** The rules for the SmolLM2 helper: only the string case of the first
    item, then the pretty-printed result, then [String(result)]. *)
Definition smol_extract (result : JsValue) : Completion JsValue :=
  match item_text (get_index0 result) with
  | Some s => Normal (JStr s)
  | None =>
      match JSON_stringify_indent2 result with
      | Normal r => Normal r
      | Abrupt _ => Normal (JStr (to_string result))
      end
  end.




End Rules.

(** ** Libraries and inputs used in the examples *)

(** A library that settles every call of a kind the same way. *)
Definition answers (imported : Outcome unit) (created : Outcome Pipeline)
    (generated : Outcome JsValue) (disposed : Outcome unit) : Oracle :=
  fun _ A c =>
    match c in LibCall A return Outcome A with
    | Import => imported
    | CreatePipeline _ _ _ => created
    | Invoke _ _ _ => generated
    | Dispose _ => disposed
    end.

Definition a_pipeline : Pipeline := {| pipe_id := 0; has_dispose := true |}.

Definition hello_result : JsValue := JArr [JObj [("generated_text", JStr "hello")]].

Definition generating_ok (result : JsValue) : Oracle :=
  answers (Resolved tt) (Resolved a_pipeline) (Resolved result) (Resolved tt).


Definition import_fails (e : JsValue) : Oracle :=
  answers (Rejected e) (Resolved a_pipeline) (Resolved hello_result) (Resolved tt).




(** Nothing else touches the cells while the call is suspended. *)
Definition undisturbed {Cells : Type} : nat -> Cells -> Cells := fun _ c => c.

(** [[{ generated_text: [1] }]] *)
Definition number_list_result : JsValue :=
  JArr [JObj [("generated_text", JArr [JNum 1])]].





(** The state setters a run called after it resumed from its [m]-th
    suspension. *)
Definition setters_after {Eff : Type} (is_setter : Eff -> bool) (m : nat)
    (t : list (Obs Eff)) : list Eff :=
  filter is_setter (effects (after_await m t)).

(** The UI state after a list of effects. *)
Definition ui_after {Eff UI : Type} (apply_ui : Eff -> UI -> UI)
    (effs : list Eff) (u : UI) : UI :=
  fold_left (fun u e => apply_ui e u) effs u.

(** ** Shapes used in the further properties *)
Module Shapes.

(** The object carries a non-empty array as its [generated_text]. *)
Definition carries_messages (x : JsValue) : bool :=
  match Rules.carried_generated_text x with
  | Some (JArr _) => true
  | _ => false
  end.

(** A chat-style result: the first element of the array, or the single
    object, carries a non-empty array as its [generated_text]. *)
Definition chat_style (result : JsValue) : bool :=
  match result with
  | JArr (x :: _) => carries_messages x
  | JObj _ => carries_messages result
  | _ => false
  end.


End Shapes.

(** The invocations a run made: pipeline, input and options. *)
Fixpoint invocations {Eff : Type} (t : list (Obs Eff))
  : list (Pipeline * JsValue * GenOptions) :=
  match t with
  | [] => []
  | Did _ :: rest => invocations rest
  | Awaited _ c _ :: rest =>
      match c with
      | Invoke p input opts => (p, input, opts) :: invocations rest
      | _ => invocations rest
      end
  end.

(** [[{ generated_text: [user message, assistant message] }]] *)
Definition chat_result : JsValue :=
  JArr [JObj [("generated_text",
               JArr [JObj [("role", JStr "user"); ("content", JStr "2+2?")];
                     JObj [("role", JStr "assistant"); ("content", JStr "4")]])]].

(** ** Flags and calls

    What the flags of a page say, against the calls that are pending. *)
Definition task_is_load {Eff Cells : Type} (t : Task Eff Cells) : bool :=
  match t with Suspended c _ => is_load c end.

Definition task_is_generation {Eff Cells : Type} (t : Task Eff Cells) : bool :=
  match t with Suspended c _ => is_generation c end.

Definition load_pending {Eff Cells UI : Type} (cfg : Config Eff Cells UI) : bool :=
  existsb task_is_load (pending cfg).

Definition generation_pending {Eff Cells UI : Type} (cfg : Config Eff Cells UI) : bool :=
  existsb task_is_generation (pending cfg).

Definition is_some {X : Type} (o : option X) : bool :=
  match o with Some _ => true | None => false end.

(** Any number of steps of a page. *)
Inductive steps {Eff Cells UI : Type} (apply_cell : Eff -> Cells -> Cells)
    (apply_ui : Eff -> UI -> UI) (page : Page Eff Cells UI)
  : Config Eff Cells UI -> Config Eff Cells UI -> Prop :=
| steps_none cfg : steps apply_cell apply_ui page cfg cfg
| steps_more cfg cfg' cfg'' :
    steps apply_cell apply_ui page cfg cfg' ->
    step apply_cell apply_ui page cfg' cfg'' ->
    steps apply_cell apply_ui page cfg cfg''.

Module Flags.

(** llama2.c page: a mounted page is not cancelled; the loading flag of
    a page that is not cancelled means a pending load; the generating flag
    means a pending generation; ready goes with a generator. *)
Definition llama (cfg : Config Llama.Eff Llama.Cells Llama.UI) : bool :=
  implb (mounted cfg) (negb (Llama.cancelled (cells cfg)))
  && implb (Llama.loading (ui cfg) && negb (Llama.cancelled (cells cfg)))
       (load_pending cfg)
  && implb (Llama.generating (ui cfg)) (generation_pending cfg)
  && Bool.eqb (Llama.ready (ui cfg)) (is_some (Llama.generator (ui cfg))).

(** DistilGPT-2 and Phi-3 pages. *)
Definition ref (cfg : Config RefPage.Eff RefPage.Cells RefPage.UI) : bool :=
  implb (RefPage.isLoadingModel (ui cfg)) (load_pending cfg)
  && implb (RefPage.isGenerating (ui cfg)) (generation_pending cfg).

(** Min-footprint page. *)
Definition footprint
    (cfg : Config SmolMinFootprint.Eff SmolMinFootprint.Cells SmolMinFootprint.UI)
  : bool :=
  implb (SmolMinFootprint.loadingModel (ui cfg)) (load_pending cfg)
  && implb (SmolMinFootprint.generating (ui cfg)) (generation_pending cfg)
  && Bool.eqb (SmolMinFootprint.ready (ui cfg))
       (is_some (SmolMinFootprint.generator (ui cfg))).

(** Disposable page: the invariant of the page, and with nothing in
    flight a status that is neither loading nor running. *)
Definition disposable
    (cfg : Config SmolDisposable.Eff SmolDisposable.Cells SmolDisposable.UI) : Prop :=
  exists releases active,
    pending cfg = (releases ++ active)%list
    /\ Forall SmolDisposable.disposal releases
    /\ SmolDisposable.Active active (ui cfg) (cells cfg)
    /\ (active = [] -> SmolDisposable.button_disabled (ui cfg) = false).

End Flags.

(** The llama2.c page after its load failed at the import (or, with
    [at_import] false, at the construction of the pipeline). *)
Definition llama_load_failed (at_import : bool) (e : JsValue)
  : Config Llama.Eff Llama.Cells Llama.UI :=
  let mounted_page :=
    run_sync Llama.apply_cell Llama.apply_ui Llama.loadModel (first_render Llama.page) in
  if at_import then
    run_sync Llama.apply_cell Llama.apply_ui
      (resume Llama.importing (Rejected e)) (drop_task 0 mounted_page)
  else
    run_sync Llama.apply_cell Llama.apply_ui
      (resume Llama.creating (Rejected e))
      (drop_task 0
         (run_sync Llama.apply_cell Llama.apply_ui
            (resume Llama.importing (Resolved tt)) (drop_task 0 mounted_page))).

(** ** What the pages render from their state *)
Module Render.

(** The label of the Generate button. *)
Definition llama_label (u : Llama.UI) : string :=
  if Llama.generating u then "Generating…" else "Generate".

Definition ref_label (u : RefPage.UI) : string :=
  if RefPage.isGenerating u then "Generating..." else "Generate".

Definition disposable_label (u : SmolDisposable.UI) : string :=
  match SmolDisposable.status u with
  | SmolDisposable.Running => "Generating…"
  | _ => "Generate (CPU q4)"
  end.

Definition footprint_label (u : SmolMinFootprint.UI) : string :=
  if SmolMinFootprint.generating u then "Generating…" else "Generate (then free model)".

(** The status line of the llama2.c and min-footprint pages. *)
Definition llama_status (u : Llama.UI) : string :=
  if Llama.loading u then "loading…"
  else if Llama.ready u then "ready" else "not ready".

Definition footprint_status (u : SmolMinFootprint.UI) : string :=
  if SmolMinFootprint.loadingModel u then "loading model…"
  else if SmolMinFootprint.ready u then "ready" else "not loaded".



End Render.

(** * Properties *)

Lemma isChatMessage_content (m : JsValue) :
  match Rules.chat_message_content m with
  | Some c => Phi3Text.isChatMessage m = true /\ get_prop "content" m = JStr c
  | None => Phi3Text.isChatMessage m = false
  end.
Proof.
  destruct m; simpl; auto.
  unfold Phi3Text.isChatMessage; simpl.
  destruct (lookup "role" props) as [[]|]; simpl; auto;
    destruct (lookup "content" props) as [[]|]; simpl; auto.
Qed.

Lemma last_content_or_stringify_rule (gt : JsValue) :
  Phi3Text.last_content_or_stringify gt =
  match Rules.chat_message_content (last_item gt) with
  | Some c => Normal (JStr c)
  | None => JSON_stringify gt
  end.
Proof.
  unfold Phi3Text.last_content_or_stringify.
  pose proof (isChatMessage_content (last_item gt)) as H.
  destruct (Rules.chat_message_content (last_item gt)).
  - destruct H as [-> ->]; reflexivity.
  - rewrite H; reflexivity.
Qed.

Lemma getGeneratedText_carried (x : JsValue) :
  match Rules.carried_generated_text x with
  | Some gt =>
      Phi3Text.getGeneratedText x = gt
      /\ (is_string gt = true \/ (is_string gt = false /\ nonempty_array gt = true))
  | None =>
      is_string (Phi3Text.getGeneratedText x) = false
      /\ nonempty_array (Phi3Text.getGeneratedText x) = false
  end.
Proof.
  destruct x; simpl; auto.
  unfold Phi3Text.getGeneratedText; simpl.
  destruct (lookup "generated_text" props) as [[| | | | | |[|]| |]|]; simpl; auto.
Qed.

Lemma nonempty_is_array (v : JsValue) : nonempty_array v = true -> is_array v = true.
Proof. destruct v; simpl; auto; discriminate. Qed.

Lemma inspect_rule {T} (x : JsValue) (on_string on_array : JsValue -> T) (other : T) :
  (if is_string (Phi3Text.getGeneratedText x)
   then on_string (Phi3Text.getGeneratedText x)
   else if is_array (Phi3Text.getGeneratedText x)
           && nonempty_array (Phi3Text.getGeneratedText x)
        then on_array (Phi3Text.getGeneratedText x)
        else other)
  = match Rules.carried_generated_text x with
    | Some (JStr s) => on_string (JStr s)
    | Some gt => on_array gt
    | None => other
    end.
Proof.
  pose proof (getGeneratedText_carried x) as H.
  destruct (Rules.carried_generated_text x) as [gt|].
  - destruct H as [-> [Hs|[Hs Hn]]].
    + rewrite Hs. destruct gt; simpl in *; try discriminate; reflexivity.
    + rewrite Hs, Hn, (nonempty_is_array _ Hn); simpl.
      destruct gt; simpl in *; try discriminate; reflexivity.
  - destruct H as [-> ->]. rewrite andb_false_r. reflexivity.
Qed.

Lemma extractText_phi3_rules (result : JsValue) :
  Phi3Text.extractText result = Rules.phi3_extract_amended result.
Proof.
  unfold Phi3Text.extractText, Rules.phi3_extract_amended, Rules.phi3_extract.
  destruct result as [| | | | | |[|x rest]|props|]; try reflexivity.
  - change (is_array (JArr (x :: rest)) && nonempty_array (JArr (x :: rest))) with true.
    change (get_index0 (JArr (x :: rest))) with x.
    cbv beta iota zeta.
    rewrite (inspect_rule x (fun gt => Some (Normal gt))
               (fun gt => Some (Phi3Text.last_content_or_stringify gt)) None).
    destruct (Rules.carried_generated_text x) as [gt|]; [|reflexivity].
    destruct gt; try reflexivity; apply last_content_or_stringify_rule.
  - change (is_array (JObj props) && nonempty_array (JObj props)) with false.
    cbv beta iota zeta.
    rewrite (inspect_rule (JObj props) (fun gt => Normal gt)
               Phi3Text.last_content_or_stringify
               (if is_string (JObj props) then Normal (JObj props)
                else JSON_stringify (JObj props))).
    destruct (Rules.carried_generated_text (JObj props)) as [gt|]; [|reflexivity].
    destruct gt; try reflexivity; apply last_content_or_stringify_rule.
Qed.

Lemma extractText_smol_rules (result : JsValue) :
  SmolText.extractText result = Rules.smol_extract result.
Proof.
  unfold SmolText.extractText, Rules.smol_extract, SmolText.first_generated_text.
  destruct (is_nullish result) eqn:Hr.
  - destruct result; simpl in *; try discriminate; reflexivity.
  - destruct (get_index0 result) as [| | | | | | |props|]; simpl; try reflexivity.
    destruct (lookup "generated_text" props) as [[]|]; reflexivity.
Qed.

(** C1, as the code has it: the Phi-3 helper returns the string
    [generated_text] of the first element of an array result or of a
    single object; the content of the last chat message when that
    [generated_text] is a non-empty array ending in one; the stringified
    [generated_text] when it is a non-empty array ending in anything
    else; a string result itself; and the stringified result in every
    remaining case.  The SmolLM2 helper has the first rule only, then the
    pretty-printed result. *)
Theorem extractText_case_analysis (result : JsValue) :
  Phi3Text.extractText result = Rules.phi3_extract_amended result
  /\ SmolText.extractText result = Rules.smol_extract result.
Proof.
  split; [apply extractText_phi3_rules | apply extractText_smol_rules].
Qed.

(** C1, as stated, fails on [[{ generated_text: [1] }]]: none of the
    named shapes applies, and the helper returns the stringified
    [generated_text], which is not the stringified result. *)
Lemma extractText_stringifies_generated_text :
  Phi3Text.extractText number_list_result = JSON_stringify (JArr [JNum 1])
  /\ Rules.phi3_extract_stated number_list_result = JSON_stringify number_list_result
  /\ Phi3Text.extractText number_list_result
     <> Rules.phi3_extract_stated number_list_result.
Proof.
  split; [reflexivity | split; [reflexivity | vm_compute; discriminate]].
Qed.










(** Case analysis on how the library settles the next call of a run. *)
Ltac settle oracle :=
  match goal with
  | |- context [oracle ?n ?A ?c] =>
      let o := fresh "answer" in
      destruct (oracle n A c) as [o|o] eqn:?; simpl
  end.


(** Membership in an explicit list of effects, case by case. *)
Ltac in_cases H :=
  simpl in H;
  repeat (destruct H as [H|H]; [try discriminate H|]);
  try contradiction.


Lemma smol_extractText_normal (v : JsValue) :
  exists r, SmolText.extractText v = Normal r.
Proof.
  unfold SmolText.extractText.
  destruct (is_string (SmolText.first_generated_text v)); eauto.
  destruct (JSON_stringify_indent2 v); eauto.
Qed.





(** A run of the min-footprint page that reaches its try block invokes
    the captured pipeline once and ends by clearing the generating flag,
    the generator and the ready flag, whatever the generation did. *)
Lemma footprint_run_releases (oracle : Oracle)
    (world : nat -> SmolMinFootprint.Cells -> SmolMinFootprint.Cells)
    (u : SmolMinFootprint.UI) (cells : SmolMinFootprint.Cells) (gen : Pipeline) :
  SmolMinFootprint.generator u = Some gen ->
  let r := SmolMinFootprint.run oracle world
             (SmolMinFootprint.runOnceAndFree u) 0 cells in
  let after := ui_after SmolMinFootprint.apply_ui (effects (trace r)) u in
  completion r = Normal tt
  /\ invoked (trace r) = [gen]
  /\ SmolMinFootprint.generator after = None
  /\ SmolMinFootprint.ready after = false
  /\ SmolMinFootprint.generating after = false
  /\ exists before,
       effects (trace r)
       = (before ++ [SmolMinFootprint.SetGenerating false;
                     SmolMinFootprint.SetGenerator None;
                     SmolMinFootprint.SetReady false])%list.
Proof.
  intros Hgen. cbv zeta.
  unfold SmolMinFootprint.run, SmolMinFootprint.runOnceAndFree.
  rewrite Hgen; simpl.
  settle oracle.
  - destruct (smol_extractText_normal answer) as [text ->]; simpl.
    repeat split.
    exists [SmolMinFootprint.SetGenerating true;
            SmolMinFootprint.SetOutput (JStr EmptyString);
            SmolMinFootprint.SetOutput text]. reflexivity.
  - repeat split.
    eexists [SmolMinFootprint.SetGenerating true;
             SmolMinFootprint.SetOutput (JStr EmptyString);
             SmolMinFootprint.SetOutput _]. reflexivity.
Qed.




Lemma bind_ret_tt {Eff Cells : Type} (apply_cell : Eff -> Cells -> Cells)
    (oracle : Oracle) (world : nat -> Cells -> Cells) (p : Async Eff Cells unit) :
  forall n cells,
    exec apply_cell oracle world (bind p (fun _ => Ret tt)) n cells
    = exec apply_cell oracle world p n cells.
Proof.
  induction p as [[]|e|e k IH|k IH|A c k IH]; intros n cells; simpl;
    try reflexivity.
  - rewrite IH; reflexivity.
  - apply IH.
  - rewrite IH; reflexivity.
Qed.














Arguments failure_text : simpl never.
Arguments template : simpl never.




(** X1: on the llama2.c page the flag silences the load: whenever the
    cleanup runs while [loadModel] is suspended, no state setter runs
    after it resumes. *)
Lemma cancelled_load_is_silent (oracle : Oracle) (m : nat) (cells : Llama.Cells) :
  setters_after Llama.is_setter m
    (trace (Llama.run oracle (Llama.cancel_at m) Llama.loadModel 0 cells)) = [].
Proof.
  unfold setters_after, Llama.run, Llama.loadModel, Llama.unless_cancelled,
    Llama.cancel_at.
  destruct cells as [c]. destruct m as [|[|m]]; simpl;
    repeat (settle oracle);
    repeat match goal with
           | |- context [if negb ?b then _ else _] => destruct b; simpl
           end;
    reflexivity.
Qed.

(** C6 on the code: on the Phi-3 and DistilGPT-2 pages [init] still
    calls state setters after the cleanup has set the flag: the finally
    block clears the loading flag, and the catch block sets the status. *)
Theorem init_sets_state_after_cancel :
  setters_after RefPage.is_setter 0
    (trace (RefPage.run (generating_ok hello_result) (RefPage.cancel_at 0)
              (RefPage.init Phi3.variant) 0 (initial_cells (RefPage.page Phi3.variant))))
  = [RefPage.SetIsLoadingModel false]
  /\ setters_after RefPage.is_setter 0
       (trace (RefPage.run (generating_ok hello_result) (RefPage.cancel_at 0)
                 (RefPage.init DistilGPT2.variant) 0
                 (initial_cells (RefPage.page DistilGPT2.variant))))
     = [RefPage.SetIsLoadingModel false]
  /\ setters_after RefPage.is_setter 0
       (trace (RefPage.run (import_fails (JStr "offline")) (RefPage.cancel_at 0)
                 (RefPage.init Phi3.variant) 0
                 (initial_cells (RefPage.page Phi3.variant))))
     = [RefPage.SetStatus "Error loading model: offline";
        RefPage.SetIsLoadingModel false].
Proof. repeat split. Qed.

(** ** The trigger is guarded *)

Lemma reachable_invariant {Eff Cells UI : Type}
    (apply_cell : Eff -> Cells -> Cells) (apply_ui : Eff -> UI -> UI)
    (page : Page Eff Cells UI) (I : Config Eff Cells UI -> Prop) :
  I (run_sync apply_cell apply_ui (mount_effect page) (first_render page)) ->
  (forall cfg cfg', I cfg -> step apply_cell apply_ui page cfg cfg' -> I cfg') ->
  forall cfg, reachable apply_cell apply_ui page cfg -> I cfg.
Proof.
  intros Hinit Hstep cfg Hr. induction Hr; eauto.
Qed.

(** The one task of a one-element list. *)
Ltac only_task H :=
  match type of H with
  | nth_error _ ?i = Some _ =>
      destruct i as [|[|?]]; simpl in H; try discriminate H; injection H as <-
  end.

Ltac llama_shape :=
  simpl;
  first [ solve [eapply Llama.inv_idle; simpl;
                 first [assumption | congruence | intros; congruence]]
        | solve [eapply Llama.inv_loading; simpl;
                 [reflexivity | first [left; reflexivity | right; reflexivity]
                 | congruence | congruence]]
        | solve [eapply Llama.inv_generating; simpl;
                 [reflexivity | congruence
                 | first [assumption | intros; congruence]]] ].

Lemma llama_invariant_step (cfg cfg' : Config Llama.Eff Llama.Cells Llama.UI) :
  Llama.Inv cfg -> step Llama.apply_cell Llama.apply_ui Llama.page cfg cfg' ->
  Llama.Inv cfg'.
Proof.
  intros HI Hs. destruct Hs as [cfg Hm Hd|cfg h Hm Hc|cfg i t o Hn|cfg Hm].
  - simpl in Hd. unfold Llama.button_disabled in Hd.
    destruct HI as [cfg t Hp Ht Hr Hg|cfg Hp Hg Hl|cfg u gen Hp Hg Hl].
    + rewrite Hr in Hd. discriminate Hd.
    + simpl. unfold Llama.generate.
      destruct (Llama.generator (ui cfg)) as [gen|] eqn:Hgen; simpl.
      * eapply Llama.inv_generating with (u := ui cfg) (gen := gen); simpl;
          [rewrite Hp; reflexivity | reflexivity | exact Hl].
      * eapply Llama.inv_idle; assumption.
    + rewrite Hg, orb_true_r in Hd. discriminate Hd.
  - destruct Hc as [s ->].
    destruct HI as [cfg t Hp Ht Hr Hg|cfg Hp Hg Hl|cfg u gen Hp Hg Hl]; simpl.
    + eapply Llama.inv_loading; simpl; eauto.
    + eapply Llama.inv_idle; simpl; eauto.
    + eapply Llama.inv_generating; simpl; eauto.
  - destruct HI as [cfg t0 Hp Ht Hr Hg|cfg Hp Hg Hl|cfg u gen Hp Hg Hl];
      rewrite Hp in Hn.
    + only_task Hn. unfold drop_task. rewrite Hp.
      destruct (Llama.cancelled (cells cfg)) eqn:Hc;
        destruct Ht as [->| ->]; destruct o as [a|e];
        repeat (simpl; rewrite ?Hc); llama_shape.
    + destruct i; discriminate Hn.
    + only_task Hn. unfold drop_task. rewrite Hp.
      destruct o as [a|e]; simpl;
        try destruct (LlamaText.first_text_or_empty a); llama_shape.
  - destruct HI as [cfg t Hp Ht Hr Hg|cfg Hp Hg Hl|cfg u gen Hp Hg Hl]; simpl.
    + eapply Llama.inv_loading; simpl; eauto.
    + eapply Llama.inv_idle; simpl; eauto.
    + eapply Llama.inv_generating; simpl; eauto.
Qed.

Lemma llama_invariant_guards (cfg : Config Llama.Eff Llama.Cells Llama.UI) :
  Llama.Inv cfg ->
  (List.length (in_flight cfg) <= 1)%nat
  /\ (in_flight cfg <> [] -> generate_disabled Llama.page (ui cfg) = true)
  /\ (busy Llama.page (ui cfg) = true -> generate_disabled Llama.page (ui cfg) = true).
Proof.
  unfold in_flight. simpl. unfold Llama.button_disabled.
  intros [c t Hp Ht Hr Hg|c Hp Hg Hl|c u gen Hp Hg Hl]; rewrite Hp.
  - split; [destruct Ht as [->| ->]; simpl; lia|].
    rewrite Hr. split; reflexivity.
  - simpl. split; [lia|]. split; [congruence|].
    rewrite Hg, orb_false_r. intros H. rewrite (Hl H). reflexivity.
  - split; [simpl; lia|]. rewrite Hg, orb_true_r. split; reflexivity.
Qed.

Lemma llama_guarded : guarded Llama.apply_cell Llama.apply_ui Llama.page.
Proof.
  intros cfg Hr. apply llama_invariant_guards.
  revert cfg Hr. apply reachable_invariant.
  - eapply Llama.inv_loading; simpl;
      [reflexivity | left; reflexivity | reflexivity | reflexivity].
  - apply llama_invariant_step.
Qed.

Ltac ref_shape v :=
  simpl;
  first [ solve [eapply (RefPage.inv_idle v); simpl; congruence]
        | solve [eapply (RefPage.inv_loading v); simpl;
                 [reflexivity | first [left; reflexivity | right; reflexivity]
                 | congruence]]
        | solve [eapply (RefPage.inv_generating v); simpl;
                 [reflexivity | congruence]] ].

Lemma ref_invariant_step (v : RefPage.Variant)
    (cfg cfg' : Config RefPage.Eff RefPage.Cells RefPage.UI) :
  RefPage.Inv v cfg ->
  step RefPage.apply_cell RefPage.apply_ui (RefPage.page v) cfg cfg' ->
  RefPage.Inv v cfg'.
Proof.
  intros HI Hs. destruct Hs as [cfg Hm Hd|cfg h Hm Hc|cfg i t o Hn|cfg Hm].
  - simpl in Hd. unfold RefPage.button_disabled in Hd.
    destruct HI as [cfg t Hp Ht Hl|cfg Hp|cfg u pipe Hp Hg].
    + rewrite Hl in Hd. discriminate Hd.
    + simpl. unfold RefPage.onGenerate. simpl.
      destruct (RefPage.generatorRef (cells cfg)) as [pipe|] eqn:Hgen; simpl.
      * eapply (RefPage.inv_generating v) with (u := ui cfg) (pipe := pipe); simpl;
          [rewrite Hp; reflexivity | reflexivity].
      * eapply RefPage.inv_idle; assumption.
    + rewrite Hg, orb_true_r in Hd. discriminate Hd.
  - destruct Hc as [_ [s ->]].
    destruct HI as [cfg t Hp Ht Hl|cfg Hp|cfg u pipe Hp Hg]; simpl.
    + eapply RefPage.inv_loading; simpl; eauto.
    + eapply RefPage.inv_idle; simpl; eauto.
    + eapply RefPage.inv_generating; simpl; eauto.
  - destruct HI as [cfg t0 Hp Ht Hl|cfg Hp|cfg u pipe Hp Hg];
      rewrite Hp in Hn.
    + only_task Hn. unfold drop_task. rewrite Hp.
      destruct (RefPage.cancelled (cells cfg)) eqn:Hc;
        destruct Ht as [->| ->]; destruct o as [a|e];
        repeat (simpl; rewrite ?Hc);
        try match goal with
            | |- context [thrown_message ?x] => destruct (thrown_message x)
            end;
        ref_shape v.
    + destruct i; discriminate Hn.
    + only_task Hn. unfold drop_task. rewrite Hp.
      destruct o as [a|e]; simpl;
        repeat match goal with
               | |- context [RefPage.extract v ?x] =>
                   destruct (RefPage.extract v x); simpl
               | |- context [thrown_message ?x] =>
                   destruct (thrown_message x); simpl
               end;
        ref_shape v.
  - destruct HI as [cfg t Hp Ht Hl|cfg Hp|cfg u pipe Hp Hg]; simpl.
    + eapply RefPage.inv_loading; simpl; eauto.
    + eapply RefPage.inv_idle; simpl; eauto.
    + eapply RefPage.inv_generating; simpl; eauto.
Qed.

Lemma ref_invariant_guards (v : RefPage.Variant)
    (cfg : Config RefPage.Eff RefPage.Cells RefPage.UI) :
  RefPage.Inv v cfg ->
  (List.length (in_flight cfg) <= 1)%nat
  /\ (in_flight cfg <> [] -> generate_disabled (RefPage.page v) (ui cfg) = true)
  /\ (busy (RefPage.page v) (ui cfg) = true ->
      generate_disabled (RefPage.page v) (ui cfg) = true).
Proof.
  unfold in_flight. simpl. unfold RefPage.button_disabled.
  intros [c t Hp Ht Hl|c Hp|c u pipe Hp Hg]; rewrite Hp.
  - split; [destruct Ht as [->| ->]; simpl; lia|].
    rewrite Hl. split; reflexivity.
  - simpl. split; [lia|]. split; [congruence | auto].
  - split; [simpl; lia|]. rewrite Hg, orb_true_r. split; reflexivity.
Qed.

Lemma ref_guarded (v : RefPage.Variant) :
  guarded RefPage.apply_cell RefPage.apply_ui (RefPage.page v).
Proof.
  intros cfg Hr. apply (ref_invariant_guards v).
  revert cfg Hr. apply reachable_invariant.
  - eapply (RefPage.inv_loading v); simpl;
      [reflexivity | left; reflexivity | reflexivity].
  - apply ref_invariant_step.
Qed.

Ltac footprint_shape :=
  simpl;
  first [ solve [eapply SmolMinFootprint.inv_idle; simpl; congruence]
        | solve [eapply SmolMinFootprint.inv_loading; simpl;
                 [ reflexivity
                 | unfold SmolMinFootprint.load_task;
                   first [ left; reflexivity
                         | right; left; reflexivity
                         | right; right; eexists; left; reflexivity
                         | right; right; eexists; right; reflexivity ]
                 | congruence ]]
        | solve [eapply SmolMinFootprint.inv_generating; simpl;
                 [reflexivity | congruence]] ].

Lemma footprint_invariant_step (nav : option (list string))
    (cfg cfg' : Config SmolMinFootprint.Eff SmolMinFootprint.Cells SmolMinFootprint.UI) :
  SmolMinFootprint.Inv cfg ->
  step SmolMinFootprint.apply_cell SmolMinFootprint.apply_ui
    (SmolMinFootprint.page nav) cfg cfg' ->
  SmolMinFootprint.Inv cfg'.
Proof.
  intros HI Hs. destruct Hs as [cfg Hm Hd|cfg h Hm Hc|cfg i t o Hn|cfg Hm].
  - simpl in Hd. unfold SmolMinFootprint.button_disabled in Hd.
    destruct HI as [cfg t Hp Ht Hl|cfg Hp|cfg u gen Hp Hg].
    + rewrite Hl, orb_true_r in Hd. discriminate Hd.
    + simpl. unfold SmolMinFootprint.runOnceAndFree.
      destruct (SmolMinFootprint.generator (ui cfg)) as [gen|] eqn:Hgen; simpl.
      * eapply SmolMinFootprint.inv_generating with (u := ui cfg) (gen := gen); simpl;
          [rewrite Hp; reflexivity | reflexivity].
      * eapply SmolMinFootprint.inv_loading; simpl;
          [ rewrite Hp; reflexivity
          | right; left; reflexivity
          | reflexivity ].
    + rewrite Hg in Hd. discriminate Hd.
  - destruct HI as [cfg t Hp Ht Hl|cfg Hp|cfg u gen Hp Hg];
      destruct Hc as [->|[s ->]]; simpl.
    + eapply SmolMinFootprint.inv_loading; simpl; eauto.
    + eapply SmolMinFootprint.inv_loading; simpl; eauto.
    + eapply SmolMinFootprint.inv_idle; simpl; eauto.
    + eapply SmolMinFootprint.inv_idle; simpl; eauto.
    + eapply SmolMinFootprint.inv_generating; simpl; eauto.
    + eapply SmolMinFootprint.inv_generating; simpl; eauto.
  - destruct HI as [cfg t0 Hp Ht Hl|cfg Hp|cfg u gen Hp Hg];
      rewrite Hp in Hn.
    + only_task Hn. unfold drop_task. rewrite Hp.
      destruct Ht as [->|[->|[nav' [->| ->]]]]; destruct o as [a|e]; simpl;
        footprint_shape.
    + destruct i; discriminate Hn.
    + only_task Hn. unfold drop_task. rewrite Hp.
      destruct o as [a|e]; simpl;
        try match goal with
            | |- context [SmolText.extractText ?x] =>
                let text := fresh "text" in
                destruct (smol_extractText_normal x) as [text ->]; simpl
            end;
        footprint_shape.
  - destruct HI as [cfg t Hp Ht Hl|cfg Hp|cfg u gen Hp Hg]; simpl.
    + eapply SmolMinFootprint.inv_loading; simpl; eauto.
    + eapply SmolMinFootprint.inv_idle; simpl; eauto.
    + eapply SmolMinFootprint.inv_generating; simpl; eauto.
Qed.

Lemma footprint_invariant_guards (nav : option (list string))
    (cfg : Config SmolMinFootprint.Eff SmolMinFootprint.Cells SmolMinFootprint.UI) :
  SmolMinFootprint.Inv cfg ->
  (List.length (in_flight cfg) <= 1)%nat
  /\ (in_flight cfg <> [] ->
      generate_disabled (SmolMinFootprint.page nav) (ui cfg) = true)
  /\ (busy (SmolMinFootprint.page nav) (ui cfg) = true ->
      generate_disabled (SmolMinFootprint.page nav) (ui cfg) = true).
Proof.
  unfold in_flight. simpl. unfold SmolMinFootprint.button_disabled.
  intros [c t Hp Ht Hl|c Hp|c u gen Hp Hg]; rewrite Hp.
  - split; [destruct Ht as [->|[->|[nav' [->| ->]]]]; simpl; lia|].
    rewrite Hl, orb_true_r. split; reflexivity.
  - simpl. split; [lia|]. split; [congruence|].
    intros H. rewrite orb_comm. exact H.
  - split; [simpl; lia|]. rewrite Hg. split; reflexivity.
Qed.

Lemma footprint_guarded (nav : option (list string)) :
  guarded SmolMinFootprint.apply_cell SmolMinFootprint.apply_ui
    (SmolMinFootprint.page nav).
Proof.
  intros cfg Hr. apply (footprint_invariant_guards nav).
  revert cfg Hr. apply reachable_invariant.
  - eapply SmolMinFootprint.inv_loading; simpl;
      [reflexivity | left; reflexivity | reflexivity].
  - apply footprint_invariant_step.
Qed.

Lemma nth_error_app_split {X : Type} (l1 l2 : list X) (i : nat) (x : X) :
  nth_error (l1 ++ l2)%list i = Some x ->
  (nth_error l1 i = Some x
   /\ remove_nth i (l1 ++ l2)%list = (remove_nth i l1 ++ l2)%list)
  \/ (exists j, nth_error l2 j = Some x
                /\ remove_nth i (l1 ++ l2)%list = (l1 ++ remove_nth j l2)%list).
Proof.
  revert i. induction l1 as [|y l1 IH]; intros i H; simpl in *.
  - right. exists i. split; [exact H | reflexivity].
  - destruct i as [|i]; simpl in *.
    + left. split; [exact H | reflexivity].
    + destruct (IH i H) as [[H1 H2]|(j & H1 & H2)].
      * left. split; [exact H1 | rewrite H2; reflexivity].
      * right. exists j. split; [exact H1 | rewrite H2; reflexivity].
Qed.

Lemma Forall_remove_nth {X : Type} (P : X -> Prop) (l : list X) (i : nat) :
  Forall P l -> Forall P (remove_nth i l).
Proof.
  intros H. revert i. induction H as [|x l Hx Hl IH]; intros i.
  - destruct i; constructor.
  - destruct i; simpl; [exact Hl | constructor; auto].
Qed.

Lemma Forall_nth_error {X : Type} (P : X -> Prop) (l : list X) (i : nat) (x : X) :
  Forall P l -> nth_error l i = Some x -> P x.
Proof.
  intros H Hn. apply nth_error_In in Hn.
  rewrite Forall_forall in H. auto.
Qed.

Lemma releases_not_in_flight
    (releases : list (Task SmolDisposable.Eff SmolDisposable.Cells)) :
  Forall SmolDisposable.disposal releases ->
  filter task_in_flight releases = [].
Proof.
  induction 1 as [|t l [id ->] _ IH]; simpl; [reflexivity | exact IH].
Qed.

(** Close a goal [Inv cfg] of the disposable page for an explicit [cfg]:
    the releases are those given, possibly with one more. *)
Ltac disposable_shape releases Hrel :=
  simpl; rewrite ?app_nil_r;
  first
    [ solve [ exists releases, []; split; [rewrite app_nil_r; reflexivity|];
              split; [exact Hrel|];
              eapply SmolDisposable.act_none; simpl; congruence ]
    | solve [ exists releases; eexists; split; [reflexivity|];
              split; [exact Hrel|];
              first [ eapply SmolDisposable.act_loading; simpl;
                      [ first [left; reflexivity | right; reflexivity]
                      | congruence | congruence ]
                    | eapply SmolDisposable.act_running; simpl; congruence ] ]
    | solve [ eexists (releases ++ [SmolDisposable.disposing _])%list; exists [];
              split; [rewrite app_nil_r; reflexivity|];
              split; [ apply Forall_app; split;
                       [exact Hrel | constructor; [eexists; reflexivity | constructor]]
                     | eapply SmolDisposable.act_none; simpl; congruence ] ] ].

Lemma disposable_invariant_step
    (cfg cfg' : Config SmolDisposable.Eff SmolDisposable.Cells SmolDisposable.UI) :
  SmolDisposable.Inv cfg ->
  step SmolDisposable.apply_cell SmolDisposable.apply_ui SmolDisposable.page cfg cfg' ->
  SmolDisposable.Inv cfg'.
Proof.
  intros (releases & active & Hp & Hrel & Hact) Hs.
  destruct Hs as [cfg Hm Hd|cfg h Hm Hc|cfg i t o Hn|cfg Hm].
  - destruct cfg as [u c pend m]. simpl in *. subst pend.
    unfold SmolDisposable.button_disabled in Hd.
    destruct Hact as [u c Href|u c t v Ht Hst Href|u c v p Hst Href].
    + unfold SmolDisposable.runOnceAndFree, SmolDisposable.loadPipeline. simpl.
      rewrite Href. simpl.
      exists releases, [SmolDisposable.importing u]. simpl.
      split; [rewrite app_nil_r; reflexivity|].
      split; [exact Hrel|].
      eapply SmolDisposable.act_loading; simpl; [left; reflexivity | reflexivity | exact Href].
    + rewrite Hst in Hd. discriminate Hd.
    + rewrite Hst in Hd. discriminate Hd.
  - destruct Hc as [s ->]. destruct cfg as [u c pend m]. simpl in *.
    exists releases, active. split; [exact Hp|]. split; [exact Hrel|].
    destruct Hact as [u c Href|u c t v Ht Hst Href|u c v p Hst Href].
    + apply SmolDisposable.act_none; exact Href.
    + eapply SmolDisposable.act_loading; simpl; eauto.
    + eapply SmolDisposable.act_running; simpl; eauto.
  - rewrite Hp in Hn. unfold drop_task. rewrite Hp.
    destruct (nth_error_app_split _ _ _ _ Hn) as [[Hin ->]|(j & Hin & ->)].
    + destruct (Forall_nth_error _ _ _ _ Hrel Hin) as [id ->].
      pose proof (Forall_remove_nth _ _ i Hrel) as Hrel'.
      destruct o as [a|e]; simpl;
        (exists (remove_nth i releases), active;
         split; [reflexivity|]; split; [exact Hrel'|]; exact Hact).
    + destruct cfg as [u c pend m]. simpl in *.
      destruct Hact as [u c Href|u c t0 v Ht Hst Href|u c v p Hst Href].
      * destruct j; discriminate Hin.
      * only_task Hin.
        destruct Ht as [->| ->]; destruct o as [a|e];
          repeat (simpl; rewrite ?Href);
          disposable_shape releases Hrel.
      * only_task Hin. destruct p as [id disposable].
        destruct disposable; destruct o as [a|e];
          repeat (simpl; rewrite ?Href);
          try match goal with
              | |- context [SmolText.extractText ?x] =>
                  let text := fresh "text" in
                  destruct (smol_extractText_normal x) as [text ->]
              end;
          repeat (simpl; rewrite ?Href);
          disposable_shape releases Hrel.
  - destruct cfg as [u c pend m]. simpl in *.
    exists releases, active. auto.
Qed.

Lemma disposable_invariant_guards
    (cfg : Config SmolDisposable.Eff SmolDisposable.Cells SmolDisposable.UI) :
  SmolDisposable.Inv cfg ->
  (List.length (in_flight cfg) <= 1)%nat
  /\ (in_flight cfg <> [] -> generate_disabled SmolDisposable.page (ui cfg) = true)
  /\ (busy SmolDisposable.page (ui cfg) = true ->
      generate_disabled SmolDisposable.page (ui cfg) = true).
Proof.
  intros (releases & active & Hp & Hrel & Hact).
  unfold in_flight. rewrite Hp, filter_app, (releases_not_in_flight _ Hrel).
  simpl. unfold SmolDisposable.button_disabled.
  destruct Hact as [u c Href|u c t v Ht Hst Href|u c v p Hst Href].
  - simpl. split; [lia|]. split; [congruence | auto].
  - split; [destruct Ht as [->| ->]; simpl; lia|].
    rewrite Hst. split; reflexivity.
  - split; [simpl; lia|]. rewrite Hst. split; reflexivity.
Qed.

Lemma disposable_guarded :
  guarded SmolDisposable.apply_cell SmolDisposable.apply_ui SmolDisposable.page.
Proof.
  intros cfg Hr. apply disposable_invariant_guards.
  revert cfg Hr. apply reachable_invariant.
  - exists [], []. simpl. split; [reflexivity|]. split; [constructor|].
    apply SmolDisposable.act_none. reflexivity.
  - apply disposable_invariant_step.
Qed.

(** C4: on each of the five pages, in every reachable state at most one
    model load or generation is in flight, and whenever one is in
    flight, or the loading or generating flag is set, or the status is
    loading or running, the Generate button is disabled. *)
Theorem one_call_in_flight :
  guarded Llama.apply_cell Llama.apply_ui Llama.page
  /\ guarded RefPage.apply_cell RefPage.apply_ui (RefPage.page DistilGPT2.variant)
  /\ guarded RefPage.apply_cell RefPage.apply_ui (RefPage.page Phi3.variant)
  /\ guarded SmolDisposable.apply_cell SmolDisposable.apply_ui SmolDisposable.page
  /\ (forall nav,
         guarded SmolMinFootprint.apply_cell SmolMinFootprint.apply_ui
           (SmolMinFootprint.page nav)).
Proof.
  split; [apply llama_guarded|].
  split; [apply ref_guarded|].
  split; [apply ref_guarded|].
  split; [apply disposable_guarded | apply footprint_guarded].
Qed.

Lemma one_call_in_flight_witness :
  in_flight (run_sync Llama.apply_cell Llama.apply_ui
               (mount_effect Llama.page) (first_render Llama.page))
  = [Llama.importing]
  /\ generate_disabled Llama.page
       (ui (run_sync Llama.apply_cell Llama.apply_ui
              (mount_effect Llama.page) (first_render Llama.page)))
     = true.
Proof.
  split; [reflexivity|].
  apply (proj1 (proj2 (proj1 one_call_in_flight _
                         (reach_mount Llama.apply_cell Llama.apply_ui Llama.page)))).
  discriminate.
Defined.

(** * Further properties of the helpers *)



(** X3: in a chat-style result only the last message counts: whatever comes
    before it, the Phi-3 helper returns the content of the last element
    when that is a chat message, for an array result and for a single
    object alike. *)
Theorem last_message_wins (x : JsValue) (rest msgs : list JsValue)
    (m : JsValue) (c : string) :
  Phi3Text.getGeneratedText x = JArr (msgs ++ [m])%list ->
  Rules.chat_message_content m = Some c ->
  Phi3Text.extractText (JArr (x :: rest)) = Normal (JStr c)
  /\ Phi3Text.extractText x = Normal (JStr c).
Proof.
  intros Hgt Hm.
  assert (Hne : nonempty_array (JArr (msgs ++ [m])%list) = true).
  { destruct msgs; reflexivity. }
  assert (Hlast : Phi3Text.last_content_or_stringify (JArr (msgs ++ [m])%list)
                  = Normal (JStr c)).
  { rewrite last_content_or_stringify_rule. simpl.
    rewrite last_last, Hm. reflexivity. }
  assert (Hx : is_array x = false).
  { destruct x; try reflexivity. unfold Phi3Text.getGeneratedText in Hgt.
    simpl in Hgt. discriminate Hgt. }
  unfold Phi3Text.extractText.
  change (get_index0 (JArr (x :: rest))) with x.
  rewrite Hgt, Hx, Hne, Hlast. simpl. split; reflexivity.
Qed.

Lemma last_message_wins_witness :
  Phi3Text.extractText chat_result = Normal (JStr "4")
  /\ Phi3Text.extractText (get_index0 chat_result) = Normal (JStr "4").
Proof.
  apply (last_message_wins (get_index0 chat_result) []
           [JObj [("role", JStr "user"); ("content", JStr "2+2?")]]
           (JObj [("role", JStr "assistant"); ("content", JStr "4")]) "4");
    reflexivity.
Defined.

(** X4: on the common result shape, an array whose first element carries a
    string [generated_text], the four pages extract the same text: that
    string. *)
Theorem helpers_agree_on_text (props : list (string * JsValue))
    (rest : list JsValue) (s : string) :
  lookup "generated_text" props = Some (JStr s) ->
  Phi3Text.extractText (JArr (JObj props :: rest)) = Normal (JStr s)
  /\ DistilText.extract (JArr (JObj props :: rest)) = Normal (JStr s)
  /\ SmolText.extractText (JArr (JObj props :: rest)) = Normal (JStr s)
  /\ LlamaText.first_text_or_empty (JArr (JObj props :: rest)) = Normal (JStr s).
Proof.
  intros H.
  unfold Phi3Text.extractText, Phi3Text.getGeneratedText, DistilText.extract,
    DistilText.isTextGenItem, SmolText.extractText, SmolText.first_generated_text,
    LlamaText.first_text_or_empty.
  simpl. rewrite H. simpl. repeat split; reflexivity.
Qed.

Lemma helpers_agree_on_text_witness :
  Phi3Text.extractText hello_result = Normal (JStr "hello")
  /\ DistilText.extract hello_result = Normal (JStr "hello")
  /\ SmolText.extractText hello_result = Normal (JStr "hello")
  /\ LlamaText.first_text_or_empty hello_result = Normal (JStr "hello").
Proof.
  apply (helpers_agree_on_text [("generated_text", JStr "hello")] [] "hello").
  reflexivity.
Defined.

Lemma isTextGenItem_carried (x : JsValue) :
  Shapes.carries_messages x = false ->
  match Rules.carried_generated_text x with
  | Some gt => DistilText.isTextGenItem x = true /\ get_prop "generated_text" x = gt
               /\ is_string gt = true
  | None => DistilText.isTextGenItem x = false
  end.
Proof.
  unfold Shapes.carries_messages, DistilText.isTextGenItem.
  destruct x; simpl; auto.
  destruct (lookup "generated_text" props) as [[| | | | | |[|]| |]|]; simpl; auto;
    discriminate.
Qed.

(** X5: the DistilGPT-2 extraction and the Phi-3 helper differ only on
    chat-style results: on every other result they return the same, and
    on a chat-style result the DistilGPT-2 page shows the stringified
    result. *)
Theorem distil_agrees_with_phi3 (result : JsValue) :
  (Shapes.chat_style result = false ->
   DistilText.extract result = Phi3Text.extractText result)
  /\ (Shapes.chat_style result = true ->
      DistilText.extract result = JSON_stringify result).
Proof.
  split.
  - intros Hc. rewrite extractText_phi3_rules.
    unfold Rules.phi3_extract_amended, Rules.phi3_extract, DistilText.extract.
    destruct result as [| | | | | |[|x rest]|props|]; try reflexivity.
    + change (get_index0 (JArr (x :: rest))) with x.
      simpl in Hc. pose proof (isTextGenItem_carried x Hc) as H.
      destruct (Rules.carried_generated_text x) as [gt|].
      * destruct H as (-> & -> & Hs). destruct gt; try discriminate Hs. reflexivity.
      * rewrite H. reflexivity.
    + simpl in Hc. pose proof (isTextGenItem_carried (JObj props) Hc) as H.
      destruct (Rules.carried_generated_text (JObj props)) as [gt|].
      * destruct H as (-> & -> & Hs). destruct gt; try discriminate Hs. reflexivity.
      * rewrite H. reflexivity.
  - intros Hc. unfold DistilText.extract, DistilText.isTextGenItem.
    destruct result as [| | | | | |[|x rest]|props|]; try discriminate Hc.
    + change (get_index0 (JArr (x :: rest))) with x.
      simpl in Hc. unfold Shapes.carries_messages in Hc.
      destruct x as [| | | | | | |xprops|]; try discriminate Hc. simpl in *.
      destruct (lookup "generated_text" xprops) as [[| | | | | |[|]| |]|];
        try discriminate Hc; reflexivity.
    + simpl in Hc. unfold Shapes.carries_messages in Hc. simpl in *.
      destruct (lookup "generated_text" props) as [[| | | | | |[|]| |]|];
        try discriminate Hc; reflexivity.
Qed.

Lemma distil_agrees_with_phi3_witness :
  DistilText.extract chat_result = JSON_stringify chat_result.
Proof.
  apply (proj2 (distil_agrees_with_phi3 chat_result)). reflexivity.
Defined.



(** * Further properties of the handlers *)

(** X7: [onGenerate] of the DistilGPT-2 and Phi-3 pages.  Without a stored
    generator it does nothing.  With one it invokes the pipeline once, on
    the input built from the prompt of its render; it starts by setting
    the generating flag and clearing the output and always ends by
    clearing the flag, also when its catch block throws; and when the
    generation resolves and the extraction returns, the output is what the
    extraction returned. *)
Theorem onGenerate_brackets_generation (v : RefPage.Variant) (oracle : Oracle)
    (world : nat -> RefPage.Cells -> RefPage.Cells)
    (u : RefPage.UI) (cells : RefPage.Cells) :
  let r := RefPage.run oracle world (RefPage.onGenerate v u) 0 cells in
  let after := ui_after RefPage.apply_ui (effects (trace r)) u in
  match RefPage.generatorRef cells with
  | None => trace r = [] /\ completion r = Normal tt
  | Some pipe =>
      invocations (trace r)
      = [(pipe, RefPage.make_input v (RefPage.prompt u), RefPage.gen_options v)]
      /\ (exists middle,
            effects (trace r)
            = RefPage.SetIsGenerating true :: RefPage.SetOutput (JStr EmptyString)
              :: (middle ++ [RefPage.SetIsGenerating false])%list)
      /\ RefPage.isGenerating after = false
      /\ (forall result text,
            oracle 0 _ (Invoke pipe (RefPage.make_input v (RefPage.prompt u))
                          (RefPage.gen_options v)) = Resolved result ->
            RefPage.extract v result = Normal text ->
            completion r = Normal tt /\ RefPage.output after = text)
  end.
Proof.
  cbv zeta.
  unfold RefPage.run, RefPage.onGenerate, RefPage.generatorFn, RefPage.report. simpl.
  destruct (RefPage.generatorRef cells) as [pipe|]; simpl; [|split; reflexivity].
  settle oracle.
  - destruct (RefPage.extract v answer) as [text|thrown] eqn:Hx; simpl.
    + split; [reflexivity|]. split; [exists [RefPage.SetOutput text]; reflexivity|].
      split; [reflexivity|].
      intros result text' Hr Ht. injection Hr as <-.
      rewrite Hx in Ht. injection Ht as <-. split; reflexivity.
    + destruct (thrown_message thrown) as [m|e]; simpl;
        (split; [reflexivity|]);
        (split; [first [ eexists [RefPage.ConsoleError _; _]; reflexivity
                       | eexists [RefPage.ConsoleError _]; reflexivity ]|]);
        (split; [reflexivity|]);
        intros result text' Hr Ht; injection Hr as <-; congruence.
  - destruct (thrown_message answer) as [m|e]; simpl;
      (split; [reflexivity|]);
      (split; [first [ eexists [RefPage.ConsoleError _; _]; reflexivity
                       | eexists [RefPage.ConsoleError _]; reflexivity ]|]);
      (split; [reflexivity|]);
      intros result text' Hr Ht; discriminate Hr.
Qed.


(** X9: [init] of the DistilGPT-2 and Phi-3 pages, not cancelled: it stores
    the generator exactly when the import and the construction of the
    pipeline both resolve, and the status then reads "Model ready."; in
    every case its last effect clears the loading flag. *)
Theorem init_publishes_on_success (v : RefPage.Variant) (oracle : Oracle)
    (u : RefPage.UI) (ref : option Pipeline) :
  let cells := {| RefPage.cancelled := false; RefPage.generatorRef := ref |} in
  let r := RefPage.run oracle undisturbed (RefPage.init v) 0 cells in
  let after := ui_after RefPage.apply_ui (effects (trace r)) u in
  let create := CreatePipeline text_generation (RefPage.model_id v) no_options in
  (exists before,
      effects (trace r) = (before ++ [RefPage.SetIsLoadingModel false])%list)
  /\ RefPage.isLoadingModel after = false
  /\ match oracle 0 _ Import, oracle 1 _ create with
     | Resolved _, Resolved p =>
         RefPage.generatorRef (final_cells r) = Some p
         /\ RefPage.status after = "Model ready."
         /\ completion r = Normal tt
     | _, _ =>
         RefPage.generatorRef (final_cells r) = ref
         /\ pipeline_requests (trace r)
            = match oracle 0 _ Import with
              | Resolved _ => [(text_generation, RefPage.model_id v, no_options)]
              | Rejected _ => []
              end
     end.
Proof.
  cbv zeta. unfold RefPage.run, RefPage.init, RefPage.report, undisturbed. simpl.
  settle oracle.
  - settle oracle.
    + split; [eexists [_; _; _; _; _]; reflexivity|]. repeat split.
    + destruct (thrown_message answer0) as [m|e]; simpl.
      * split; [eexists [_; _; _; _; _]; reflexivity|]. repeat split.
      * split; [eexists [_; _; _; _]; reflexivity|]. repeat split.
  - try match goal with
        | |- context [oracle 1 ?A ?c] => destruct (oracle 1 A c)
        end;
      destruct (thrown_message answer) as [m|e]; simpl;
      (split; [first [eexists [_; _; _; _]; reflexivity
                     | eexists [_; _; _]; reflexivity]|]);
      repeat split.
Qed.

(** X10: [init] once cancelled: when the cleanup runs during either
    suspension, the stored generator is left as it was, the status is
    never set to "Model ready." by the rest of the call, and the only
    setters that still run are the clearing of the loading flag and the
    report of a rejection. *)
Theorem cancelled_init_publishes_nothing (v : RefPage.Variant) (oracle : Oracle)
    (m : nat) (ref : option Pipeline) :
  (m <= 1)%nat ->
  let cells := {| RefPage.cancelled := false; RefPage.generatorRef := ref |} in
  let r := RefPage.run oracle (RefPage.cancel_at m) (RefPage.init v) 0 cells in
  RefPage.generatorRef (final_cells r) = ref
  /\ (m = 0%nat -> pipeline_requests (trace r) = [])
  /\ (forall e, In e (setters_after RefPage.is_setter m (trace r)) ->
        e = RefPage.SetIsLoadingModel false
        \/ exists msg, e = RefPage.SetStatus (template "Error loading model: " msg)).
Proof.
  intros Hm. cbv zeta.
  unfold setters_after, RefPage.run, RefPage.init, RefPage.report, RefPage.cancel_at.
  destruct m as [|[|m]]; [| |lia]; simpl;
    repeat (settle oracle);
    repeat match goal with
           | |- context [thrown_message ?x] => destruct (thrown_message x); simpl
           end;
    (split; [reflexivity|]);
    (split; [first [reflexivity | discriminate]|]);
    intros eff H; in_cases H; subst eff; eauto.
Qed.

Lemma cancelled_init_publishes_nothing_witness :
  let cells := {| RefPage.cancelled := false; RefPage.generatorRef := None |} in
  let r := RefPage.run (generating_ok hello_result) (RefPage.cancel_at 1)
             (RefPage.init Phi3.variant) 0 cells in
  RefPage.generatorRef (final_cells r) = None
  /\ (1%nat = 0%nat -> pipeline_requests (trace r) = [])
  /\ (forall e, In e (setters_after RefPage.is_setter 1 (trace r)) ->
        e = RefPage.SetIsLoadingModel false
        \/ exists msg, e = RefPage.SetStatus (template "Error loading model: " msg)).
Proof.
  apply (cancelled_init_publishes_nothing Phi3.variant (generating_ok hello_result)
           1 None).
  lia.
Defined.


(** [loadPipeline] of the disposable page keeps the handle it loads: with
    a stored handle it returns it without any library call; otherwise it
    returns and stores the constructed pipeline, or rethrows the rejection
    and stores nothing. *)
Theorem loadPipeline_keeps_the_handle (oracle : Oracle) (cells : SmolDisposable.Cells) :
  let r := SmolDisposable.run oracle undisturbed SmolDisposable.loadPipeline 0 cells in
  let create := CreatePipeline text_generation smol_model_id
                  SmolDisposable.pipeline_options in
  match SmolDisposable.pipelineRef cells with
  | Some p => trace r = [] /\ completion r = Normal p
  | None =>
      match oracle 0 _ Import, oracle 1 _ create with
      | Resolved _, Resolved p =>
          completion r = Normal p
          /\ SmolDisposable.pipelineRef (final_cells r) = Some p
      | Resolved _, Rejected e | Rejected e, _ =>
          completion r = Abrupt e
          /\ SmolDisposable.pipelineRef (final_cells r) = None
      end
  end.
Proof.
  cbv zeta. unfold SmolDisposable.run, SmolDisposable.loadPipeline, undisturbed.
  destruct cells as [[p|]]; simpl; [split; reflexivity|].
  settle oracle.
  - settle oracle; split; reflexivity.
  - try match goal with
        | |- context [oracle 1 ?A ?c] => destruct (oracle 1 A c)
        end;
      split; reflexivity.
Qed.

(** X12: loading twice in a row constructs at most one pipeline, and both
    calls return the same handle. *)
Theorem loadPipeline_twice (oracle : Oracle) (cells : SmolDisposable.Cells) :
  let r := SmolDisposable.run oracle undisturbed
             (p1 <- SmolDisposable.loadPipeline ;;
              p2 <- SmolDisposable.loadPipeline ;;
              Ret (p1, p2)) 0 cells in
  (List.length (pipeline_requests (trace r)) <= 1)%nat
  /\ (forall p1 p2, completion r = Normal (p1, p2) -> p1 = p2).
Proof.
  cbv zeta. unfold SmolDisposable.run, SmolDisposable.loadPipeline, undisturbed.
  destruct cells as [[p|]]; simpl.
  - split; [lia|]. intros p1 p2 H. injection H as <- <-. reflexivity.
  - repeat (settle oracle); (split; [simpl; lia|]);
      intros p1 p2 H; try discriminate H.
    injection H as <- <-. reflexivity.
Qed.

(** X13: [disposePipeline] never throws and always leaves the handle null; it
    calls [dispose()] on the stored pipeline when there is one with the
    method, and a second call in a row releases nothing more. *)
Theorem disposePipeline_releases_once (oracle : Oracle) (cells : SmolDisposable.Cells) :
  let held := match SmolDisposable.pipelineRef cells with
              | Some p => filter has_dispose [p]
              | None => []
              end in
  let once := SmolDisposable.run oracle undisturbed
                SmolDisposable.disposePipeline 0 cells in
  let twice := SmolDisposable.run oracle undisturbed
                 (SmolDisposable.disposePipeline ;; SmolDisposable.disposePipeline)
                 0 cells in
  completion once = Normal tt
  /\ SmolDisposable.pipelineRef (final_cells once) = None
  /\ disposed (trace once) = held
  /\ completion twice = Normal tt
  /\ disposed (trace twice) = held.
Proof.
  cbv zeta. unfold SmolDisposable.run, SmolDisposable.disposePipeline, undisturbed.
  destruct cells as [[[id [|]]|]]; simpl;
    repeat (settle oracle); repeat split;
    match goal with a : unit |- _ => destruct a end; reflexivity.
Qed.

(** X14: after a generation on the min-footprint page the next click only
    reloads, and the click after it generates with the reloaded pipeline:
    the handler of each render reads the generator of that render. *)
Theorem two_clicks_to_generate_again (oracle1 oracle2 oracle3 : Oracle)
    (cells : SmolMinFootprint.Cells) (u0 : SmolMinFootprint.UI) (g p : Pipeline) :
  SmolMinFootprint.generator u0 = Some g ->
  oracle2 0 _ Import = Resolved tt ->
  oracle2 1 _ (CreatePipeline text_generation smol_model_id
                 (SmolMinFootprint.pipeline_options
                    (SmolMinFootprint.navigator cells))) = Resolved p ->
  let click oracle u :=
    SmolMinFootprint.run oracle undisturbed (SmolMinFootprint.runOnceAndFree u) 0 cells in
  let next oracle u :=
    ui_after SmolMinFootprint.apply_ui (effects (trace (click oracle u))) u in
  let u1 := next oracle1 u0 in
  let u2 := next oracle2 u1 in
  invoked (trace (click oracle1 u0)) = [g]
  /\ invoked (trace (click oracle2 u1)) = []
  /\ invoked (trace (click oracle3 u2)) = [p]
  /\ SmolMinFootprint.generator (next oracle3 u2) = None.
Proof.
  intros Hg Himport Hcreate. cbv zeta.
  pose (u1 := ui_after SmolMinFootprint.apply_ui
                (effects (trace (SmolMinFootprint.run oracle1 undisturbed
                                   (SmolMinFootprint.runOnceAndFree u0) 0 cells))) u0).
  destruct (footprint_run_releases oracle1 undisturbed u0 cells g Hg)
    as (_ & Hinv1 & Hnull1 & _).
  fold u1 in Hnull1. fold u1.
  pose (u2 := ui_after SmolMinFootprint.apply_ui
                (effects (trace (SmolMinFootprint.run oracle2 undisturbed
                                   (SmolMinFootprint.runOnceAndFree u1) 0 cells))) u1).
  assert (H2 : invoked (trace (SmolMinFootprint.run oracle2 undisturbed
                                 (SmolMinFootprint.runOnceAndFree u1) 0 cells)) = []
               /\ SmolMinFootprint.generator u2 = Some p).
  { unfold u2. unfold SmolMinFootprint.run, SmolMinFootprint.runOnceAndFree.
    rewrite Hnull1. rewrite bind_ret_tt.
    unfold SmolMinFootprint.loadModel, undisturbed. simpl.
    rewrite Himport. simpl.
    unfold SmolMinFootprint.pipeline_options, SmolMinFootprint.apply_cell in *.
    simpl in Hcreate. rewrite Hcreate. simpl. split; reflexivity. }
  destruct H2 as [Hinv2 Hgen2]. fold u2.
  destruct (footprint_run_releases oracle3 undisturbed u2 cells p Hgen2)
    as (_ & Hinv3 & Hnull3 & _).
  repeat split; assumption.
Qed.

Lemma two_clicks_to_generate_again_witness :
  let cells := initial_cells (SmolMinFootprint.page None) in
  let u0 := SmolMinFootprint.apply_ui (SmolMinFootprint.SetGenerator (Some a_pipeline))
              (initial_ui (SmolMinFootprint.page None)) in
  let click oracle u :=
    SmolMinFootprint.run oracle undisturbed (SmolMinFootprint.runOnceAndFree u) 0 cells in
  let next oracle u :=
    ui_after SmolMinFootprint.apply_ui (effects (trace (click oracle u))) u in
  let u1 := next (generating_ok hello_result) u0 in
  let u2 := next (generating_ok hello_result) u1 in
  invoked (trace (click (generating_ok hello_result) u0)) = [a_pipeline]
  /\ invoked (trace (click (generating_ok hello_result) u1)) = []
  /\ invoked (trace (click (generating_ok hello_result) u2)) = [a_pipeline]
  /\ SmolMinFootprint.generator (next (generating_ok hello_result) u2) = None.
Proof.
  apply (two_clicks_to_generate_again (generating_ok hello_result)
           (generating_ok hello_result) (generating_ok hello_result)
           (initial_cells (SmolMinFootprint.page None)) _ a_pipeline a_pipeline);
    reflexivity.
Defined.

(** * Flags follow calls *)

(** Destructure the state and decide the remaining boolean facts. *)
Ltac crush_flags :=
  repeat match goal with
         | b : bool |- _ => destruct b
         | o : option _ |- _ => destruct o
         end;
  simpl in *; try reflexivity; try discriminate; try congruence.

Lemma llama_flags_step (cfg cfg' : Config Llama.Eff Llama.Cells Llama.UI) :
  Llama.Inv cfg -> Flags.llama cfg = true ->
  step Llama.apply_cell Llama.apply_ui Llama.page cfg cfg' ->
  Flags.llama cfg' = true.
Proof.
  intros HI HF Hs. unfold Flags.llama, load_pending, generation_pending in *.
  destruct Hs as [cfg Hm Hd|cfg h Hm Hc|cfg i t o Hn|cfg Hm].
  - simpl in Hd. unfold Llama.button_disabled in Hd.
    destruct HI as [cfg t Hp Ht Hr Hg|cfg Hp Hg Hl|cfg u gen Hp Hg Hl];
      destruct cfg as [[rdy ldg gng pr out g] [cn] pend m];
      simpl in *; subst; unfold Llama.generate; simpl;
      try (destruct Ht; subst); crush_flags.
  - destruct Hc as [s ->].
    destruct cfg as [[rdy ldg gng pr out g] [cn] pend m]; simpl in *. exact HF.
  - destruct HI as [cfg t0 Hp Ht Hr Hg|cfg Hp Hg Hl|cfg u gen Hp Hg Hl];
      rewrite Hp in Hn.
    + only_task Hn.
      destruct cfg as [[rdy ldg gng pr out g] [cn] pend m].
      unfold drop_task; simpl in *; subst.
      destruct Ht as [->| ->]; destruct o as [a|e]; destruct cn; simpl in *;
        crush_flags.
    + destruct i; discriminate Hn.
    + only_task Hn.
      destruct cfg as [[rdy ldg gng pr out g] [cn] pend m].
      unfold drop_task; simpl in *; subst.
      destruct o as [a|e]; simpl;
        try destruct (LlamaText.first_text_or_empty a); simpl in *; crush_flags.
  - destruct HI as [cfg t Hp Ht Hr Hg|cfg Hp Hg Hl|cfg u gen Hp Hg Hl];
      destruct cfg as [[rdy ldg gng pr out g] [cn] pend m];
      simpl in *; subst; try (destruct Ht; subst); crush_flags.
Qed.

Lemma llama_flags (cfg : Config Llama.Eff Llama.Cells Llama.UI) :
  reachable Llama.apply_cell Llama.apply_ui Llama.page cfg ->
  Llama.Inv cfg /\ Flags.llama cfg = true.
Proof.
  revert cfg. apply reachable_invariant.
  - split; [|reflexivity].
    eapply Llama.inv_loading; simpl;
      [reflexivity | left; reflexivity | reflexivity | reflexivity].
  - intros cfg cfg' [HI HF] Hs. split.
    + eapply llama_invariant_step; eassumption.
    + eapply llama_flags_step; eassumption.
Qed.

Lemma ref_flags_step (v : RefPage.Variant)
    (cfg cfg' : Config RefPage.Eff RefPage.Cells RefPage.UI) :
  RefPage.Inv v cfg -> Flags.ref cfg = true ->
  step RefPage.apply_cell RefPage.apply_ui (RefPage.page v) cfg cfg' ->
  Flags.ref cfg' = true.
Proof.
  intros HI HF Hs. unfold Flags.ref, load_pending, generation_pending in *.
  destruct Hs as [cfg Hm Hd|cfg h Hm Hc|cfg i t o Hn|cfg Hm].
  - simpl in Hd. unfold RefPage.button_disabled in Hd.
    destruct HI as [cfg t Hp Ht Hl|cfg Hp|cfg u pipe Hp Hg];
      destruct cfg as [[ldg st pr out gng] [cn g] pend m];
      simpl in *; subst; unfold RefPage.onGenerate; simpl;
      try (destruct Ht; subst); crush_flags.
  - destruct Hc as [_ [s ->]].
    destruct cfg as [[ldg st pr out gng] [cn g] pend m]; simpl in *. exact HF.
  - destruct HI as [cfg t0 Hp Ht Hl|cfg Hp|cfg u pipe Hp Hg];
      rewrite Hp in Hn.
    + only_task Hn.
      destruct cfg as [[ldg st pr out gng] [cn g] pend m].
      unfold drop_task; simpl in *; subst.
      destruct Ht as [->| ->]; destruct o as [a|e]; destruct cn; simpl in *;
        try match goal with
            | |- context [thrown_message ?x] => destruct (thrown_message x)
            end;
        simpl in *; crush_flags.
    + destruct i; discriminate Hn.
    + only_task Hn.
      destruct cfg as [[ldg st pr out gng] [cn g] pend m].
      unfold drop_task; simpl in *; subst.
      destruct o as [a|e]; simpl;
        repeat match goal with
               | |- context [RefPage.extract v ?x] =>
                   destruct (RefPage.extract v x); simpl
               | |- context [thrown_message ?x] =>
                   destruct (thrown_message x); simpl
               end;
        simpl in *; crush_flags.
  - destruct cfg as [[ldg st pr out gng] [cn g] pend m]; simpl in *. exact HF.
Qed.

Lemma ref_flags (v : RefPage.Variant)
    (cfg : Config RefPage.Eff RefPage.Cells RefPage.UI) :
  reachable RefPage.apply_cell RefPage.apply_ui (RefPage.page v) cfg ->
  RefPage.Inv v cfg /\ Flags.ref cfg = true.
Proof.
  revert cfg. apply reachable_invariant.
  - split; [|reflexivity].
    eapply (RefPage.inv_loading v); simpl;
      [reflexivity | left; reflexivity | reflexivity].
  - intros cfg cfg' [HI HF] Hs. split.
    + eapply ref_invariant_step; eassumption.
    + eapply ref_flags_step; eassumption.
Qed.

Lemma footprint_flags_step (nav : option (list string))
    (cfg cfg' : Config SmolMinFootprint.Eff SmolMinFootprint.Cells SmolMinFootprint.UI) :
  SmolMinFootprint.Inv cfg -> Flags.footprint cfg = true ->
  step SmolMinFootprint.apply_cell SmolMinFootprint.apply_ui
    (SmolMinFootprint.page nav) cfg cfg' ->
  Flags.footprint cfg' = true.
Proof.
  intros HI HF Hs. unfold Flags.footprint, load_pending, generation_pending in *.
  destruct Hs as [cfg Hm Hd|cfg h Hm Hc|cfg i t o Hn|cfg Hm].
  - simpl in Hd. unfold SmolMinFootprint.button_disabled in Hd.
    destruct HI as [cfg t Hp Ht Hl|cfg Hp|cfg u gen Hp Hg];
      destruct cfg as [[rdy ldg gng pr out g] [nv] pend m];
      simpl in *; subst; unfold SmolMinFootprint.runOnceAndFree; simpl;
      try (destruct Ht as [->|[->|[nav' [->| ->]]]]); crush_flags.
  - destruct cfg as [[rdy ldg gng pr out g] [nv] pend m];
      destruct Hc as [->|[s ->]]; simpl in *.
    + destruct (existsb task_is_load pend), (existsb task_is_generation pend);
        crush_flags.
    + exact HF.
  - destruct HI as [cfg t0 Hp Ht Hl|cfg Hp|cfg u gen Hp Hg];
      rewrite Hp in Hn.
    + only_task Hn.
      destruct cfg as [[rdy ldg gng pr out g] [nv] pend m].
      unfold drop_task; simpl in *; subst.
      destruct Ht as [->|[->|[nav' [->| ->]]]]; destruct o as [a|e]; simpl in *;
        crush_flags.
    + destruct i; discriminate Hn.
    + only_task Hn.
      destruct cfg as [[rdy ldg gng pr out g] [nv] pend m].
      unfold drop_task; simpl in *; subst.
      destruct o as [a|e]; simpl;
        try match goal with
            | |- context [SmolText.extractText ?x] =>
                let text := fresh "text" in
                destruct (smol_extractText_normal x) as [text ->]; simpl
            end;
        simpl in *; crush_flags.
  - destruct cfg as [[rdy ldg gng pr out g] [nv] pend m]; simpl in *. exact HF.
Qed.

Lemma footprint_flags (nav : option (list string))
    (cfg : Config SmolMinFootprint.Eff SmolMinFootprint.Cells SmolMinFootprint.UI) :
  reachable SmolMinFootprint.apply_cell SmolMinFootprint.apply_ui
    (SmolMinFootprint.page nav) cfg ->
  SmolMinFootprint.Inv cfg /\ Flags.footprint cfg = true.
Proof.
  revert cfg. apply reachable_invariant.
  - split; [|reflexivity].
    eapply SmolMinFootprint.inv_loading; simpl;
      [reflexivity | left; reflexivity | reflexivity].
  - intros cfg cfg' [HI HF] Hs. split.
    + eapply footprint_invariant_step; eassumption.
    + eapply footprint_flags_step; eassumption.
Qed.

Ltac disposable_flags_shape releases Hrel :=
  simpl; rewrite ?app_nil_r;
  first
    [ solve [ exists releases, []; split; [rewrite app_nil_r; reflexivity|];
              split; [exact Hrel|];
              split; [ eapply SmolDisposable.act_none; simpl; congruence
                     | intros _; reflexivity ] ]
    | solve [ exists releases; eexists; split; [reflexivity|];
              split; [exact Hrel|];
              split;
              [ first [ eapply SmolDisposable.act_loading; simpl;
                        [ first [left; reflexivity | right; reflexivity]
                        | congruence | congruence ]
                      | eapply SmolDisposable.act_running; simpl; congruence ]
              | intros H; discriminate H ] ]
    | solve [ eexists (releases ++ [SmolDisposable.disposing _])%list; exists [];
              split; [rewrite app_nil_r; reflexivity|];
              split; [ apply Forall_app; split;
                       [exact Hrel | constructor; [eexists; reflexivity | constructor]]
                     |];
              split; [ eapply SmolDisposable.act_none; simpl; congruence
                     | intros _; reflexivity ] ] ].

Lemma disposable_flags_step
    (cfg cfg' : Config SmolDisposable.Eff SmolDisposable.Cells SmolDisposable.UI) :
  Flags.disposable cfg ->
  step SmolDisposable.apply_cell SmolDisposable.apply_ui SmolDisposable.page cfg cfg' ->
  Flags.disposable cfg'.
Proof.
  intros (releases & active & Hp & Hrel & Hact & Hidle) Hs.
  destruct Hs as [cfg Hm Hd|cfg h Hm Hc|cfg i t o Hn|cfg Hm].
  - destruct cfg as [u c pend m]. simpl in *. subst pend.
    unfold SmolDisposable.button_disabled in Hd.
    destruct Hact as [u c Href|u c t v Ht Hst Href|u c v p Hst Href].
    + unfold SmolDisposable.runOnceAndFree, SmolDisposable.loadPipeline. simpl.
      rewrite Href. simpl.
      exists releases, [SmolDisposable.importing u]. simpl.
      split; [rewrite app_nil_r; reflexivity|].
      split; [exact Hrel|].
      split; [|intros H; discriminate H].
      eapply SmolDisposable.act_loading; simpl; [left; reflexivity | reflexivity | exact Href].
    + rewrite Hst in Hd. discriminate Hd.
    + rewrite Hst in Hd. discriminate Hd.
  - destruct Hc as [s ->]. destruct cfg as [u c pend m]. simpl in *.
    exists releases, active. split; [exact Hp|]. split; [exact Hrel|].
    split; [|exact Hidle].
    destruct Hact as [u c Href|u c t v Ht Hst Href|u c v p Hst Href].
    + apply SmolDisposable.act_none; exact Href.
    + eapply SmolDisposable.act_loading; simpl; eauto.
    + eapply SmolDisposable.act_running; simpl; eauto.
  - rewrite Hp in Hn. unfold drop_task. rewrite Hp.
    destruct (nth_error_app_split _ _ _ _ Hn) as [[Hin ->]|(j & Hin & ->)].
    + destruct (Forall_nth_error _ _ _ _ Hrel Hin) as [id ->].
      pose proof (Forall_remove_nth _ _ i Hrel) as Hrel'.
      destruct o as [a|e]; simpl;
        (exists (remove_nth i releases), active;
         split; [reflexivity|]; split; [exact Hrel'|]; split; [exact Hact | exact Hidle]).
    + destruct cfg as [u c pend m]. simpl in *.
      destruct Hact as [u c Href|u c t0 v Ht Hst Href|u c v p Hst Href].
      * destruct j; discriminate Hin.
      * only_task Hin.
        destruct Ht as [->| ->]; destruct o as [a|e];
          repeat (simpl; rewrite ?Href);
          disposable_flags_shape releases Hrel.
      * only_task Hin. destruct p as [id disposable].
        destruct disposable; destruct o as [a|e];
          repeat (simpl; rewrite ?Href);
          try match goal with
              | |- context [SmolText.extractText ?x] =>
                  let text := fresh "text" in
                  destruct (smol_extractText_normal x) as [text ->]
              end;
          repeat (simpl; rewrite ?Href);
          disposable_flags_shape releases Hrel.
  - destruct cfg as [u c pend m]. simpl in *.
    exists releases, active. auto.
Qed.

Lemma disposable_flags
    (cfg : Config SmolDisposable.Eff SmolDisposable.Cells SmolDisposable.UI) :
  reachable SmolDisposable.apply_cell SmolDisposable.apply_ui SmolDisposable.page cfg ->
  Flags.disposable cfg.
Proof.
  revert cfg. apply reachable_invariant.
  - exists [], []. simpl. split; [reflexivity|]. split; [constructor|].
    split; [apply SmolDisposable.act_none; reflexivity | reflexivity].
  - apply disposable_flags_step.
Qed.

Lemma releases_are_no_calls
    (releases : list (Task SmolDisposable.Eff SmolDisposable.Cells)) :
  Forall SmolDisposable.disposal releases ->
  existsb task_is_load releases = false
  /\ existsb task_is_generation releases = false.
Proof.
  induction 1 as [|t l [id ->] _ [IH1 IH2]]; simpl; auto.
Qed.

(** X15: on every page a busy flag means a pending call: while the page is
    mounted, a set loading flag (or status loading) comes with a pending
    load, and a set generating flag (or status running) with a pending
    generation; no flag outlives its call. *)
Theorem busy_flags_follow_calls :
  (forall cfg,
      reachable Llama.apply_cell Llama.apply_ui Llama.page cfg ->
      mounted cfg = true ->
      (Llama.loading (ui cfg) = true -> load_pending cfg = true)
      /\ (Llama.generating (ui cfg) = true -> generation_pending cfg = true))
  /\ (forall v cfg,
         reachable RefPage.apply_cell RefPage.apply_ui (RefPage.page v) cfg ->
         (RefPage.isLoadingModel (ui cfg) = true -> load_pending cfg = true)
         /\ (RefPage.isGenerating (ui cfg) = true -> generation_pending cfg = true))
  /\ (forall cfg,
         reachable SmolDisposable.apply_cell SmolDisposable.apply_ui
           SmolDisposable.page cfg ->
         (SmolDisposable.status (ui cfg) = SmolDisposable.Loading ->
          load_pending cfg = true)
         /\ (SmolDisposable.status (ui cfg) = SmolDisposable.Running ->
             generation_pending cfg = true))
  /\ (forall nav cfg,
         reachable SmolMinFootprint.apply_cell SmolMinFootprint.apply_ui
           (SmolMinFootprint.page nav) cfg ->
         (SmolMinFootprint.loadingModel (ui cfg) = true -> load_pending cfg = true)
         /\ (SmolMinFootprint.generating (ui cfg) = true ->
             generation_pending cfg = true)).
Proof.
  split; [|split; [|split]].
  - intros cfg Hr Hm. destruct (llama_flags cfg Hr) as [_ HF].
    unfold Flags.llama in HF. rewrite Hm in HF.
    destruct (Llama.cancelled (cells cfg)), (Llama.loading (ui cfg)),
      (Llama.generating (ui cfg)), (load_pending cfg), (generation_pending cfg);
      simpl in HF; try discriminate HF; split; intros H; congruence.
  - intros v cfg Hr. destruct (ref_flags v cfg Hr) as [_ HF].
    unfold Flags.ref in HF.
    destruct (RefPage.isLoadingModel (ui cfg)), (RefPage.isGenerating (ui cfg)),
      (load_pending cfg), (generation_pending cfg);
      simpl in HF; try discriminate HF; split; intros H; congruence.
  - intros cfg Hr.
    destruct (disposable_flags cfg Hr) as (releases & active & Hp & Hrel & Hact & Hidle).
    destruct (releases_are_no_calls releases Hrel) as [Hl Hg].
    unfold load_pending, generation_pending. rewrite Hp, !existsb_app, Hl, Hg. simpl.
    destruct Hact as [u c Href|u c t v Ht Hst Href|u c v p Hst Href].
    + specialize (Hidle eq_refl). unfold SmolDisposable.button_disabled in Hidle.
      split; intros H; rewrite H in Hidle; discriminate Hidle.
    + split; intros H; [|congruence]. destruct Ht as [->| ->]; reflexivity.
    + split; intros H; [congruence | reflexivity].
  - intros nav cfg Hr. destruct (footprint_flags nav cfg Hr) as [_ HF].
    unfold Flags.footprint in HF.
    destruct (SmolMinFootprint.loadingModel (ui cfg)),
      (SmolMinFootprint.generating (ui cfg)),
      (load_pending cfg), (generation_pending cfg);
      simpl in HF; try discriminate HF; split; intros H; congruence.
Qed.

(** X16: the ready flag tells the truth: on the llama2.c and min-footprint
    pages, in every reachable state the page is ready exactly when its
    state holds a generator; so on the llama2.c page an enabled Generate
    button always finds a generator. *)
Theorem ready_means_generator :
  (forall cfg,
      reachable Llama.apply_cell Llama.apply_ui Llama.page cfg ->
      (Llama.ready (ui cfg) = true <-> Llama.generator (ui cfg) <> None)
      /\ (generate_disabled Llama.page (ui cfg) = false ->
          exists gen, Llama.generator (ui cfg) = Some gen))
  /\ (forall nav cfg,
         reachable SmolMinFootprint.apply_cell SmolMinFootprint.apply_ui
           (SmolMinFootprint.page nav) cfg ->
         (SmolMinFootprint.ready (ui cfg) = true
          <-> SmolMinFootprint.generator (ui cfg) <> None)).
Proof.
  split.
  - intros cfg Hr. destruct (llama_flags cfg Hr) as [_ HF].
    unfold Flags.llama in HF.
    apply andb_prop in HF. destruct HF as [_ HF]. apply Bool.eqb_prop in HF.
    simpl. unfold Llama.button_disabled.
    destruct (Llama.generator (ui cfg)) as [gen|]; simpl in HF; rewrite HF; simpl.
    + split; [split; [discriminate | reflexivity] | eauto].
    + split; [split; [discriminate | congruence] | discriminate].
  - intros nav cfg Hr. destruct (footprint_flags nav cfg Hr) as [_ HF].
    unfold Flags.footprint in HF.
    apply andb_prop in HF. destruct HF as [_ HF]. apply Bool.eqb_prop in HF.
    destruct (SmolMinFootprint.generator (ui cfg)) as [gen|]; simpl in HF; rewrite HF.
    + split; [discriminate | reflexivity].
    + split; [discriminate | congruence].
Qed.



Lemma llama_stays_failed (cfg cfg' : Config Llama.Eff Llama.Cells Llama.UI) :
  pending cfg = [] -> Llama.ready (ui cfg) = false ->
  steps Llama.apply_cell Llama.apply_ui Llama.page cfg cfg' ->
  pending cfg' = [] /\ Llama.ready (ui cfg') = false.
Proof.
  intros Hp Hr Hs. induction Hs as [cfg|cfg cfg' cfg'' _ IH Hstep]; [auto|].
  destruct (IH Hp Hr) as [Hp' Hr'].
  destruct Hstep as [c Hm Hd|c h Hm Hc|c i t o Hn|c Hm].
  - simpl in Hd. unfold Llama.button_disabled in Hd.
    rewrite Hr' in Hd. discriminate Hd.
  - destruct Hc as [s ->]. simpl. auto.
  - rewrite Hp' in Hn. destruct i; discriminate Hn.
  - simpl. auto.
Qed.

(** X18: the llama2.c page has no way back from a failed load: once the
    import or the construction of the pipeline has rejected, nothing is
    pending and the Generate button is disabled in every later state. *)
Theorem failed_load_disables_for_good :
  (forall at_import e,
      reachable Llama.apply_cell Llama.apply_ui Llama.page
        (llama_load_failed at_import e))
  /\ (forall at_import e cfg',
         steps Llama.apply_cell Llama.apply_ui Llama.page
           (llama_load_failed at_import e) cfg' ->
         pending cfg' = []
         /\ generate_disabled Llama.page (ui cfg') = true).
Proof.
  split.
  - intros [|] e; unfold llama_load_failed.
    + eapply reach_step; [apply reach_mount|].
      apply (step_settle Llama.apply_cell Llama.apply_ui Llama.page _ 0
               Llama.importing (Rejected e)).
      reflexivity.
    + eapply reach_step.
      * eapply reach_step; [apply reach_mount|].
        apply (step_settle Llama.apply_cell Llama.apply_ui Llama.page _ 0
                 Llama.importing (Resolved tt)).
        reflexivity.
      * apply (step_settle Llama.apply_cell Llama.apply_ui Llama.page _ 0
                 Llama.creating (Rejected e)).
        reflexivity.
  - intros at_import e cfg' Hs.
    assert (Hp0 : pending (llama_load_failed at_import e) = [])
      by (destruct at_import; reflexivity).
    assert (Hr0 : Llama.ready (ui (llama_load_failed at_import e)) = false)
      by (destruct at_import; reflexivity).
    destruct (llama_stays_failed _ _ Hp0 Hr0 Hs) as [Hp Hr].
    split; [exact Hp|]. simpl. unfold Llama.button_disabled. rewrite Hr. reflexivity.
Qed.

Lemma failed_load_disables_for_good_witness :
  pending (llama_load_failed true (JStr "offline")) = []
  /\ generate_disabled Llama.page (ui (llama_load_failed true (JStr "offline"))) = true.
Proof.
  apply (proj2 failed_load_disables_for_good true (JStr "offline")).
  apply steps_none.
Defined.

(** * What is rendered *)

Lemma generation_label_llama (cfg : Config Llama.Eff Llama.Cells Llama.UI) :
  Llama.Inv cfg -> (generation_pending cfg = true -> Llama.generating (ui cfg) = true).
Proof.
  unfold generation_pending.
  intros [c t Hp Ht Hr Hg|c Hp Hg Hl|c u gen Hp Hg Hl]; rewrite Hp;
    [destruct Ht as [->| ->] | |]; simpl; intros H; congruence.
Qed.

Lemma generation_label_ref (v : RefPage.Variant)
    (cfg : Config RefPage.Eff RefPage.Cells RefPage.UI) :
  RefPage.Inv v cfg ->
  (generation_pending cfg = true -> RefPage.isGenerating (ui cfg) = true).
Proof.
  unfold generation_pending.
  intros [c t Hp Ht Hl|c Hp|c u pipe Hp Hg]; rewrite Hp;
    [destruct Ht as [->| ->] | |]; simpl; intros H; congruence.
Qed.

Lemma generation_label_footprint
    (cfg : Config SmolMinFootprint.Eff SmolMinFootprint.Cells SmolMinFootprint.UI) :
  SmolMinFootprint.Inv cfg ->
  (generation_pending cfg = true -> SmolMinFootprint.generating (ui cfg) = true).
Proof.
  unfold generation_pending.
  intros [c t Hp Ht Hl|c Hp|c u gen Hp Hg]; rewrite Hp;
    [destruct Ht as [->|[->|[nav' [->| ->]]]] | |]; simpl; intros H; congruence.
Qed.

(** X19: the Generate button reads "Generating" exactly while a generation
    call is pending, on each of the five pages and in every reachable
    state. *)
Theorem label_tracks_generation :
  (forall cfg,
      reachable Llama.apply_cell Llama.apply_ui Llama.page cfg ->
      (Render.llama_label (ui cfg) = "Generating…" <-> generation_pending cfg = true))
  /\ (forall v cfg,
         reachable RefPage.apply_cell RefPage.apply_ui (RefPage.page v) cfg ->
         (Render.ref_label (ui cfg) = "Generating..."
          <-> generation_pending cfg = true))
  /\ (forall cfg,
         reachable SmolDisposable.apply_cell SmolDisposable.apply_ui
           SmolDisposable.page cfg ->
         (Render.disposable_label (ui cfg) = "Generating…"
          <-> generation_pending cfg = true))
  /\ (forall nav cfg,
         reachable SmolMinFootprint.apply_cell SmolMinFootprint.apply_ui
           (SmolMinFootprint.page nav) cfg ->
         (Render.footprint_label (ui cfg) = "Generating…"
          <-> generation_pending cfg = true)).
Proof.
  split; [|split; [|split]].
  - intros cfg Hr. destruct (llama_flags cfg Hr) as [HI HF].
    pose proof (generation_label_llama cfg HI) as Hback.
    unfold Flags.llama in HF. unfold Render.llama_label.
    apply andb_prop in HF. destruct HF as [HF _].
    apply andb_prop in HF. destruct HF as [_ HG].
    destruct (Llama.generating (ui cfg)), (generation_pending cfg);
      split; intros H; try reflexivity; try discriminate H;
      try discriminate HG.
    specialize (Hback eq_refl). discriminate Hback.
  - intros v cfg Hr. destruct (ref_flags v cfg Hr) as [HI HF].
    pose proof (generation_label_ref v cfg HI) as Hback.
    unfold Flags.ref in HF. unfold Render.ref_label.
    apply andb_prop in HF. destruct HF as [_ HG].
    destruct (RefPage.isGenerating (ui cfg)), (generation_pending cfg);
      split; intros H; try reflexivity; try discriminate H;
      try discriminate HG.
    specialize (Hback eq_refl). discriminate Hback.
  - intros cfg Hr.
    destruct (disposable_flags cfg Hr) as (releases & active & Hp & Hrel & Hact & Hidle).
    destruct (releases_are_no_calls releases Hrel) as [_ Hg].
    unfold generation_pending, Render.disposable_label.
    rewrite Hp, existsb_app, Hg. simpl.
    destruct Hact as [u c Href|u c t v Ht Hst Href|u c v p Hst Href].
    + specialize (Hidle eq_refl). unfold SmolDisposable.button_disabled in Hidle.
      destruct (SmolDisposable.status u); try discriminate Hidle;
        split; intros H; discriminate H.
    + rewrite Hst. destruct Ht as [->| ->]; split; intros H; discriminate H.
    + rewrite Hst. split; reflexivity.
  - intros nav cfg Hr. destruct (footprint_flags nav cfg Hr) as [HI HF].
    pose proof (generation_label_footprint cfg HI) as Hback.
    unfold Flags.footprint in HF. unfold Render.footprint_label.
    apply andb_prop in HF. destruct HF as [HF _].
    apply andb_prop in HF. destruct HF as [_ HG].
    destruct (SmolMinFootprint.generating (ui cfg)), (generation_pending cfg);
      split; intros H; try reflexivity; try discriminate H;
      try discriminate HG.
    specialize (Hback eq_refl). discriminate Hback.
Qed.

Lemma ready_not_loading_llama (cfg : Config Llama.Eff Llama.Cells Llama.UI) :
  Llama.Inv cfg -> Llama.ready (ui cfg) = true -> load_pending cfg = false.
Proof.
  unfold load_pending.
  intros [c t Hp Ht Hr Hg|c Hp Hg Hl|c u gen Hp Hg Hl] H; rewrite Hp;
    [congruence | reflexivity | reflexivity].
Qed.

Lemma not_loading_footprint
    (cfg : Config SmolMinFootprint.Eff SmolMinFootprint.Cells SmolMinFootprint.UI) :
  SmolMinFootprint.Inv cfg ->
  SmolMinFootprint.loadingModel (ui cfg) = false -> load_pending cfg = false.
Proof.
  unfold load_pending.
  intros [c t Hp Ht Hl|c Hp|c u gen Hp Hg] H; rewrite Hp;
    [congruence | reflexivity | reflexivity].
Qed.

(** X20: when the status line of the llama2.c or the min-footprint page reads
    "ready", the state holds a generator and no load is pending. *)
Theorem ready_line_is_truthful :
  (forall cfg,
      reachable Llama.apply_cell Llama.apply_ui Llama.page cfg ->
      Render.llama_status (ui cfg) = "ready" ->
      Llama.generator (ui cfg) <> None /\ load_pending cfg = false)
  /\ (forall nav cfg,
         reachable SmolMinFootprint.apply_cell SmolMinFootprint.apply_ui
           (SmolMinFootprint.page nav) cfg ->
         Render.footprint_status (ui cfg) = "ready" ->
         SmolMinFootprint.generator (ui cfg) <> None /\ load_pending cfg = false).
Proof.
  split.
  - intros cfg Hr. destruct (llama_flags cfg Hr) as [HI HF].
    unfold Flags.llama in HF. apply andb_prop in HF. destruct HF as [_ HF].
    apply Bool.eqb_prop in HF. unfold Render.llama_status.
    destruct (Llama.loading (ui cfg)); [discriminate|].
    destruct (Llama.ready (ui cfg)) eqn:Hready; [|discriminate].
    intros _. split; [|apply (ready_not_loading_llama cfg HI Hready)].
    destruct (Llama.generator (ui cfg)); [discriminate | discriminate HF].
  - intros nav cfg Hr. destruct (footprint_flags nav cfg Hr) as [HI HF].
    unfold Flags.footprint in HF. apply andb_prop in HF. destruct HF as [_ HF].
    apply Bool.eqb_prop in HF. unfold Render.footprint_status.
    destruct (SmolMinFootprint.loadingModel (ui cfg)) eqn:Hload; [discriminate|].
    destruct (SmolMinFootprint.ready (ui cfg)); [|discriminate].
    intros _. split; [|apply (not_loading_footprint cfg HI Hload)].
    destruct (SmolMinFootprint.generator (ui cfg)); [discriminate | discriminate HF].
Qed.

Lemma ready_line_is_truthful_witness :
  Llama.generator
    (ui (run_sync Llama.apply_cell Llama.apply_ui
           (resume Llama.creating (Resolved a_pipeline))
           (drop_task 0
              (run_sync Llama.apply_cell Llama.apply_ui
                 (resume Llama.importing (Resolved tt))
                 (drop_task 0
                    (run_sync Llama.apply_cell Llama.apply_ui
                       (mount_effect Llama.page) (first_render Llama.page)))))))
  <> None
  /\ load_pending
       (run_sync Llama.apply_cell Llama.apply_ui
          (resume Llama.creating (Resolved a_pipeline))
          (drop_task 0
             (run_sync Llama.apply_cell Llama.apply_ui
                (resume Llama.importing (Resolved tt))
                (drop_task 0
                   (run_sync Llama.apply_cell Llama.apply_ui
                      (mount_effect Llama.page) (first_render Llama.page))))))
     = false.
Proof.
  apply (proj1 ready_line_is_truthful).
  - eapply reach_step.
    + eapply reach_step; [apply reach_mount|].
      apply (step_settle Llama.apply_cell Llama.apply_ui Llama.page _ 0
               Llama.importing (Resolved tt)).
      reflexivity.
    + apply (step_settle Llama.apply_cell Llama.apply_ui Llama.page _ 0
               Llama.creating (Resolved a_pipeline)).
      reflexivity.
  - reflexivity.
Defined.




